(** * wms-c: the GetCapabilities and ServiceException document builders

    A shallow embedding of [index.js] (with the option types of
    [index.d.ts]) and the properties of its documented behaviour.

    Conventions of the embedding.
    - A JavaScript value that reaches the document tree is a [value]; an
      object is an association list, because the order of its keys is the
      order of the emitted XML elements.
    - An optional property of an options record is an [option]: [None] is
      JavaScript's [undefined].
    - Zoom levels and the [spaces] option are integers ([Z]).  The
      arithmetic of [range] is the arithmetic of doubles on integers: a
      [number] is an integer, an infinity or NaN, and a sum, a difference
      or a quotient is rounded as a double rounds it.  Coordinates and
      resolutions are exact rationals ([Q]).
    - [throw new Error(msg)] is the [Throw msg] result.
    - Two functions come from outside the repository and are left
      uninterpreted: the decimal rendering of a number (used by
      [Array.prototype.join]) and the serializer [convert.js2xml] of the
      xml-js package.  They are the variables of the section [Builders]. *)

From Stdlib Require Import ZArith QArith Qpower String Ascii List Bool Lia Sorted.
Import ListNotations.

Set Warnings "-register-all".

Open Scope string_scope.
Open Scope Z_scope.

(** ** Results of code that may throw *)

Inductive result (A : Type) : Type :=
| OK (a : A)
| Throw (message : string).

Arguments OK {A} a.
Arguments Throw {A} message.

Definition bind {A B : Type} (r : result A) (k : A -> result B) : result B :=
  match r with
  | OK a => k a
  | Throw m => Throw m
  end.

Notation "x <- r ;; k" := (bind r (fun x => k))
  (at level 61, r at next level, right associativity).

(** [if (x === undefined) throw new Error(msg)]: past the check [x] is
    read as a defined value. *)
Definition required {A : Type} (x : option A) (msg : string) : result A :=
  match x with
  | Some a => OK a
  | None => Throw msg
  end.

(** [if (!x) throw new Error(msg)] for a string [x]: [undefined] and the
    empty string are falsy. *)
Definition truthy (x : option string) (msg : string) : result string :=
  match x with
  | Some EmptyString => Throw msg
  | Some s => OK s
  | None => Throw msg
  end.

(** ** JavaScript values *)

Inductive value : Type :=
| VUndefined
| VNull
| VNumber (n : Q)
| VString (s : string)
| VArray (items : list value)
| VObject (props : list (string * value)).

(** Property access [obj.key]: [undefined] when the key is absent. *)
Fixpoint lookup (key : string) (props : list (string * value)) : value :=
  match props with
  | [] => VUndefined
  | (k, v) :: rest => if String.eqb k key then v else lookup key rest
  end.

Definition get (key : string) (v : value) : value :=
  match v with
  | VObject props => lookup key props
  | _ => VUndefined
  end.

(** Array index [arr[i]]. *)
Definition item (i : nat) (v : value) : value :=
  match v with
  | VArray items => nth i items VUndefined
  | _ => VUndefined
  end.

(** Assignment [obj[key] = v]: an existing key keeps its place. *)
Fixpoint set_prop (key : string) (v : value) (props : list (string * value))
  : list (string * value) :=
  match props with
  | [] => [(key, v)]
  | (k, w) :: rest =>
      if String.eqb k key then (k, v) :: rest else (k, w) :: set_prop key v rest
  end.

(** [Object.assign(target, source)] for one source; a source that is not
    an object has no own enumerable keys to copy. *)
Definition assign1 (target : list (string * value)) (source : value)
  : list (string * value) :=
  match source with
  | VObject props => fold_left (fun acc kv => set_prop (fst kv) (snd kv) acc) props target
  | _ => target
  end.

Definition Object_assign (target : list (string * value)) (sources : list value)
  : value :=
  VObject (fold_left assign1 sources target).

(** Truthiness of the two kinds of optional input the code tests. *)
Definition truthy_string (s : option string) : bool :=
  match s with
  | Some EmptyString => false
  | Some _ => true
  | None => false
  end.

Definition truthy_number (n : option Z) : bool :=
  match n with
  | Some 0 => false
  | Some _ => true
  | None => false
  end.

(** [a || b] on an optional string and on an optional number. *)
Definition or_string (a : option string) (b : string) : string :=
  match a with
  | Some s => if truthy_string a then s else b
  | None => b
  end.

Definition or_number (a : option Z) (b : Z) : Z :=
  match a with
  | Some n => if truthy_number a then n else b
  | None => b
  end.

Definition defined {A : Type} (a : option A) : bool :=
  match a with
  | Some _ => true
  | None => false
  end.

(** The value of an optional string: the string, or [undefined]. *)
Definition of_string (s : option string) : value :=
  match s with
  | Some s => VString s
  | None => VUndefined
  end.

(** ** Regular expressions, as far as [normalize] uses them

    A pattern is a sequence of atoms: the end assertion [$] (no [m]
    flag: it holds at the end of the input only) and literal
    characters. *)

Inductive atom : Type :=
| AEnd
| AChar (c : ascii).

Definition regex := list atom.

(** Match the pattern at the start of [s]; the result is the input left
    after the match. *)
Fixpoint match_here (r : regex) (s : string) : option string :=
  match r with
  | [] => Some s
  | AEnd :: r' =>
      match s with
      | EmptyString => match_here r' s
      | String _ _ => None
      end
  | AChar c :: r' =>
      match s with
      | EmptyString => None
      | String d s' => if Ascii.eqb c d then match_here r' s' else None
      end
  end.

(** [s.replace(r, replacement)] for a pattern without the [g] flag: the
    leftmost match is replaced, a string without a match is returned as
    it is. *)
Fixpoint replace (r : regex) (replacement : string) (s : string) : string :=
  match match_here r s with
  | Some rest => replacement ++ rest
  | None =>
      match s with
      | EmptyString => EmptyString
      | String c s' => String c (replace r replacement s')
      end
  end.

(** [r.test(s)]: the pattern matches somewhere in [s]. *)
Fixpoint test (r : regex) (s : string) : bool :=
  match match_here r s with
  | Some _ => true
  | None =>
      match s with
      | EmptyString => false
      | String _ s' => test r s'
      end
  end.

(** The pattern [/$\//]. *)
Definition trailing_slash : regex := [AEnd; AChar "/"%char].

(** [function normalize (url) { return url && url.replace(/$\//, '') }] *)
Definition normalize (url : option string) : option string :=
  match url with
  | Some s => if truthy_string url then Some (replace trailing_slash "" s) else url
  | None => None
  end.

(** ** Numbers

    The numbers [range] computes with are doubles that hold integers.
    An integer of magnitude up to 2^53 is held exactly; beyond, a result
    is rounded to 53 significant bits, to the nearest value and to the
    even one of two nearest, and a result of magnitude 2^1024 or more
    is an infinity.  Zero has one sign. *)

Inductive number : Type :=
| Finite (z : Z)
| Infinite (negative : bool)
| NaN.

(** The integer nearest to [n / d] for [d > 0], the even one of two. *)
Definition round_half_even (n d : Z) : Z :=
  let q := n / d in
  let r := n mod d in
  if 2 * r <? d then q
  else if d <? 2 * r then q + 1
  else if Z.even q then q else q + 1.

(** The double nearest to the integer [z]. *)
Definition fl_int (z : Z) : number :=
  if Z.abs z <=? 2 ^ 53 then Finite z
  else
    let e := Z.log2 (Z.abs z) - 52 in
    let r := round_half_even (Z.abs z) (2 ^ e) * 2 ^ e in
    if 2 ^ 1024 <=? r then Infinite (z <? 0) else Finite (Z.sgn z * r).

(** The double nearest to [p / d] for positive integers [p] and [d], as a
    pair [(m, x)] that stands for [m * 2^x], with [2^52 <= m <= 2^53]. *)
Definition fl_quotient (p d : Z) : Z * Z :=
  let e0 := Z.log2 p - Z.log2 d in
  let e :=
    if (if 0 <=? e0 then d * 2 ^ e0 <=? p else d <=? p * 2 ^ (- e0))
    then e0 else e0 - 1 in
  let k := 52 - e in
  let m :=
    if 0 <=? k then round_half_even (p * 2 ^ k) d
    else round_half_even p (d * 2 ^ (- k)) in
  (m, e - 52).

(** The floor and the ceiling of [m * 2^x]. *)
Definition scaled_floor (m x : Z) : Z :=
  if 0 <=? x then m * 2 ^ x else m / 2 ^ (- x).

Definition scaled_ceil (m x : Z) : Z :=
  if 0 <=? x then m * 2 ^ x else - ((- m) / 2 ^ (- x)).

(** [a + b] and [a - b] *)
Definition number_add (a b : number) : number :=
  match a, b with
  | NaN, _ | _, NaN => NaN
  | Finite x, Finite y => fl_int (x + y)
  | Finite _, Infinite n => Infinite n
  | Infinite n, Finite _ => Infinite n
  | Infinite n, Infinite n' => if Bool.eqb n n' then Infinite n else NaN
  end.

Definition number_opp (a : number) : number :=
  match a with
  | Finite x => Finite (- x)
  | Infinite n => Infinite (negb n)
  | NaN => NaN
  end.

Definition number_sub (a b : number) : number := number_add a (number_opp b).

(** [a < b] *)
Definition number_lt (a b : number) : bool :=
  match a, b with
  | NaN, _ | _, NaN => false
  | Finite x, Finite y => x <? y
  | Finite _, Infinite n => negb n
  | Infinite n, Finite _ => n
  | Infinite n, Infinite n' => n && negb n'
  end.

(** Truthiness of a number, and [a || b]. *)
Definition number_truthy (a : number) : bool :=
  match a with
  | Finite 0 => false
  | NaN => false
  | _ => true
  end.

Definition number_or (a : option number) (b : number) : number :=
  match a with
  | Some n => if number_truthy n then n else b
  | None => b
  end.

(** [Math.ceil(a / b)]: the quotient is rounded as a double before the
    ceiling is taken. *)
Definition number_div_ceil (a b : number) : number :=
  match a, b with
  | NaN, _ | _, NaN => NaN
  | Infinite _, Infinite _ => NaN
  | Infinite n, Finite y => Infinite (xorb n (y <? 0))
  | Finite _, Infinite _ => Finite 0
  | Finite x, Finite y =>
      if y =? 0 then (if x =? 0 then NaN else Infinite (x <? 0))
      else if x =? 0 then Finite 0
      else
        let '(m, e) := fl_quotient (Z.abs x) (Z.abs y) in
        if xorb (x <? 0) (y <? 0) then Finite (- scaled_floor m e)
        else Finite (scaled_ceil m e)
  end.

(** [Math.max(a, 0)] *)
Definition number_max0 (a : number) : number :=
  match a with
  | Finite x => Finite (Z.max x 0)
  | Infinite true => Finite 0
  | Infinite false => Infinite false
  | NaN => NaN
  end.

(** [Array(length)]: the length of an array is an integer from 0 to
    2^32 - 1; any other argument is a RangeError. *)
Definition Array (length : number) : result nat :=
  match length with
  | Finite n =>
      if (0 <=? n) && (n <? 2 ^ 32) then OK (Z.to_nat n)
      else Throw "Invalid array length"
  | _ => Throw "Invalid array length"
  end.

(** ** Integer ranges and resolutions *)

(** The loop of [range]: [length] entries, starting at [start], with
    [start += step] between two entries. *)
Fixpoint range_loop (length : nat) (start step : number) : list number :=
  match length with
  | O => []
  | S n => start :: range_loop n (number_add start step) step
  end.

(** [function range (start, stop, step)]: [stop] and [step] may be left
    out.  Without [stop] the range runs from 0 to [start]; a [step] that
    is left out or falsy becomes -1 when [stop < start] and 1
    otherwise. *)
Definition range (start : number) (stop step : option number)
  : result (list number) :=
  let '(start, stop) :=
    match stop with
    | None => (Finite 0, number_or (Some start) (Finite 0))
    | Some stop => (start, stop)
    end in
  let step :=
    number_or step (if number_lt stop start then Finite (-1) else Finite 1) in
  let length := number_max0 (number_div_ceil (number_sub stop start) step) in
  length <- Array length ;;
  OK (range_loop length start step).

(** Modelled from the spec: the full extent of the Web Mercator
    projection, 2 * 20037508.3428 meters, which [resolution] divides. *)
Definition circumference : Q := 2 * (200375083428 # 10000).

(** Modelled from the spec: [mercator.resolution] of the global-mercator
    package, which is no part of the repository.  The spec gives the
    meters per pixel at a zoom level of the 256-pixel tile scheme as
    circumference / (256 * 2^zoom). *)
Definition resolution (zoom : Z) : Q :=
  (circumference / (256 * (2 # 1) ^ zoom))%Q.

(** Modelled from the spec: [mercator.resolution] on a number.  The zoom
    levels [resolutions] passes are the entries of a range with the step
    1 or -1 between two integers, which are integers; for the other
    numbers the value is 0, the limit of the formula at infinity. *)
Definition resolution_of (zoom : number) : Q :=
  match zoom with
  | Finite z => resolution z
  | _ => 0%Q
  end.

(** [function resolutions (minzoom, maxzoom)] *)
Definition resolutions (minzoom maxzoom : Z) : result (list Q) :=
  zooms <- range (Finite minzoom)
             (Some (number_add (Finite maxzoom) (Finite 1))) None ;;
  OK (map (fun zoom => resolution_of zoom) zooms).

(** The arithmetic progression of [n] integers from [start], in exact
    arithmetic. *)
Fixpoint progression (n : nat) (start step : Z) : list Z :=
  match n with
  | O => []
  | S n => start :: progression n (start + step) step
  end.

(** The ceiling of the exact quotient [a / b]. *)
Definition ceil_quotient (a b : Z) : Z := - ((- a) / b).

(** The zoom levels between [minzoom] and [maxzoom]: upwards to
    [maxzoom], or downwards to [maxzoom + 2] when [maxzoom + 1 < minzoom]. *)
Definition zoom_levels (minzoom maxzoom : Z) : list Z :=
  if maxzoom + 1 <? minzoom
  then progression (Z.to_nat (minzoom - maxzoom - 1)) minzoom (-1)
  else progression (Z.to_nat (maxzoom + 1 - minzoom)) minzoom 1.

(** Zoom levels on which the arithmetic of [resolutions] is exact and
    the array fits: both are held exactly by a double, as is
    [maxzoom + 1], and fewer than 2^32 levels lie between them. *)
Definition exact_zoom_range (minzoom maxzoom : Z) : Prop :=
  - 2 ^ 53 <= minzoom <= 2 ^ 53
  /\ - 2 ^ 53 <= maxzoom < 2 ^ 53
  /\ - 2 ^ 32 < maxzoom + 1 - minzoom < 2 ^ 32.

(** Each value is smaller than the one before it. *)
Definition strictly_decreasing (l : list Q) : Prop :=
  StronglySorted (fun a b => (b < a)%Q) l.

(** ** Options *)

(** [BBox = [number, number, number, number]]: west, south, east, north. *)
Definition BBox : Type := (Q * Q * Q * Q)%type.

(** [interface Options] of index.d.ts; a property that is not set is
    [None]. *)
Record Options : Type := mkOptions {
  title : option string;
  url : option string;
  format : option string;
  identifier : option string;
  minzoom : option Z;
  maxzoom : option Z;
  spaces : option Z;
  abstract : option string;
  bbox : option BBox;
  keywords : option (list string);
  accessConstraints : option string;
  fees : option string
}.

(** The object [{}]. *)
Definition no_options : Options :=
  mkOptions None None None None None None None None None None None None.

(** Record updates, for statements that vary one option. *)
Definition with_spaces (n : option Z) (o : Options) : Options :=
  mkOptions o.(title) o.(url) o.(format) o.(identifier) o.(minzoom) o.(maxzoom)
    n o.(abstract) o.(bbox) o.(keywords) o.(accessConstraints) o.(fees).

Definition with_bbox (b : option BBox) (o : Options) : Options :=
  mkOptions o.(title) o.(url) o.(format) o.(identifier) o.(minzoom) o.(maxzoom)
    o.(spaces) o.(abstract) b o.(keywords) o.(accessConstraints) o.(fees).

Definition with_format (f : option string) (o : Options) : Options :=
  mkOptions o.(title) o.(url) f o.(identifier) o.(minzoom) o.(maxzoom)
    o.(spaces) o.(abstract) o.(bbox) o.(keywords) o.(accessConstraints) o.(fees).

(** The options of the test suite (test.js). *)
Definition test_options : Options :=
  mkOptions
    (Some "Tile Service")
    (Some "http://localhost:80/WMTS")
    (Some "jpg")
    (Some "osm")
    (Some 10)
    (Some 18)
    (Some 2)
    (Some "© OSM data")
    (Some (-180, -85, 180, 85)%Q)
    (Some ["world"; "imagery"; "wms-c"])
    None
    None.

(** [type Format = 'png' | 'jpeg' | 'jpg'] *)
Inductive Format : Type := png | jpeg | jpg.

Definition Format_string (f : Format) : string :=
  match f with
  | png => "png"
  | jpeg => "jpeg"
  | jpg => "jpg"
  end.

Module ExceptionOptions.
Record t : Type := mk { spaces : option Z }.
End ExceptionOptions.

(** The options [getCapabilities] and [exception] hand to
    [convert.js2xml]. *)
Module Js2xml.
Record t : Type := mk { compact : bool; spaces : Z }.
End Js2xml.

(** ** Constants *)

Definition SPACES : Z := 2.
Definition BBOX : BBox :=
  (-180, -(850511287798 # 10000000000), 180, 850511287798 # 10000000000)%Q.
Definition BBOX_METERS : BBox :=
  (-(200375083428 # 10000), -(200375083428 # 10000),
   200375083428 # 10000, 200375083428 # 10000)%Q.

(** ** Utilities *)

(** What [JSON.parse(JSON.stringify(v))] leaves of a value inside a
    document: a property whose value is [undefined] is dropped, an
    [undefined] array entry becomes [null]. *)
Fixpoint json_roundtrip (v : value) : value :=
  match v with
  | VArray items =>
      VArray (map (fun x => match x with
                            | VUndefined => VNull
                            | _ => json_roundtrip x
                            end) items)
  | VObject props =>
      VObject ((fix props_roundtrip (ps : list (string * value)) :=
                  match ps with
                  | [] => []
                  | (_, VUndefined) :: rest => props_roundtrip rest
                  | (k, x) :: rest => (k, json_roundtrip x) :: props_roundtrip rest
                  end) props)
  | _ => v
  end.

(** [function clean (obj) { return JSON.parse(JSON.stringify(obj)) }]:
    [JSON.stringify(undefined)] is [undefined], which [JSON.parse]
    rejects. *)
Definition clean (obj : value) : result value :=
  match obj with
  | VUndefined => Throw "SyntaxError"
  | _ => OK (json_roundtrip obj)
  end.

(** The element [{_text: s}]. *)
Definition text (s : string) : value := VObject [("_text", VString s)].

(** The attributes of an [OnlineResource] link. *)
Definition xlink (href : string) : value :=
  VObject [("_attributes", VObject [
    ("xmlns:xlink", VString "http://www.w3.org/1999/xlink");
    ("xlink:type", VString "simple");
    ("xlink:href", VString href)])].

(** [arr.join(separator)] on the rendered entries. *)
Definition join (separator : string) (entries : list string) : string :=
  String.concat separator entries.

(** ** Document tree builders

    The builders that start with [options = options || {}] (all but
    [Request]) apply the identity to an options record; the entry points
    below take the optional argument. *)

(** [function Keywords (keywords)] *)
Definition Keywords (keywords : option (list string)) : value :=
  let keywords := match keywords with Some l => l | None => [] end in
  VObject [("KeywordList", VObject [
    ("Keyword", VArray (map (fun keyword => text keyword) keywords))])].

(** [function Service (options)] *)
Definition Service (options : Options) : result value :=
  title <- truthy options.(title) "options.title is required" ;;
  url <- truthy options.(url) "options.url is required" ;;
  let abstract := options.(abstract) in
  let accessConstraints := or_string options.(accessConstraints) "none" in
  let fees := or_string options.(fees) "none" in
  let keywords := options.(keywords) in
  clean (VObject [("Service", VObject [
    ("Name", text "OGC:WMS");
    ("Title", text title);
    ("Abstract", VObject [("_text", of_string abstract)]);
    ("KeywordList",
      match keywords with
      | Some _ => get "KeywordList" (Keywords keywords)
      | None => VUndefined
      end);
    ("OnlineResource", xlink url);
    ("Fees", text fees);
    ("AccessConstraints", text accessConstraints)])]).

(** [function DCPType (url)] *)
Definition DCPType (url : option string) : result value :=
  url <- truthy url "url is required" ;;
  OK (VObject [("HTTP", VObject [("Get", VObject [
    ("OnlineResource", xlink url)])])]).

(** [function BoundingBox (bbox, srs)]: an array is truthy, so the check
    rejects a missing [bbox] only. *)
Definition BoundingBox (bbox : option BBox) (srs : option string) : result value :=
  bbox <- required bbox "bbox is required" ;;
  let '(west, south, east, north) := bbox in
  clean (VObject [("_attributes", VObject [
    ("SRS", of_string srs);
    ("minx", VNumber west);
    ("miny", VNumber south);
    ("maxx", VNumber east);
    ("maxy", VNumber north)])]).

(** The alias [(options.format === 'jpg') ? 'jpeg' : options.format]. *)
Definition mime_format (format : string) : string :=
  if String.eqb format "jpg" then "jpeg" else format.

(** [function Request (options)] *)
Definition Request (options : Options) : result value :=
  url <- truthy options.(url) "options.url is required" ;;
  format <- truthy options.(format) "options.format is required" ;;
  let format := mime_format format in
  capabilitiesDCP <- DCPType (Some url) ;;
  mapDCP <- DCPType (Some url) ;;
  featureInfoDCP <- DCPType (Some url) ;;
  OK (VObject [("Request", VObject [
    ("GetCapabilities", VObject [
      ("Format", text "application/vnd.ogc.wms_xml");
      ("DCPType", capabilitiesDCP)]);
    ("GetMap", VObject [
      ("Format", text ("image/" ++ format));
      ("DCPType", mapDCP)]);
    ("GetFeatureInfo", VObject [
      ("Format", VArray [
        text "application/vnd.ogc.gml";
        text "text/plain";
        text "text/html"]);
      ("DCPType", featureInfoDCP)])])]).

(** [function Layer (options)] *)
Definition Layer (options : Options) : result value :=
  identifier <- required options.(identifier) "identifier is required" ;;
  title <- required options.(title) "title is required" ;;
  _ <- required options.(url) "url is required" ;;
  meters900913 <- BoundingBox (Some BBOX_METERS) (Some "EPSG:900913") ;;
  degrees4326 <- BoundingBox (Some BBOX) (Some "EPSG:4326") ;;
  meters3857 <- BoundingBox (Some BBOX_METERS) (Some "EPSG:3857") ;;
  let BoundingBoxes := VArray [meters900913; degrees4326; meters3857] in
  LatLonBoundingBox <- BoundingBox (Some BBOX) None ;;
  subLatLonBoundingBox <- BoundingBox (Some BBOX) None ;;
  OK (VObject [("Layer", VObject [
    ("Title", text title);
    ("SRS", VArray [
      text "EPSG:900913";
      text "EPSG:4326";
      text "CRS:84";
      text "EPSG:3857"]);
    ("LatLonBoundingBox", LatLonBoundingBox);
    ("BoundingBox", BoundingBoxes);
    ("Layer", VObject [
      ("Name", text identifier);
      ("Title", text title);
      ("LatLonBoundingBox", subLatLonBoundingBox);
      ("BoundingBox", BoundingBoxes)])])]).

(** The XML declaration both documents start with. *)
Definition declaration : value :=
  VObject [("_attributes", VObject [
    ("version", VString "1.0");
    ("encoding", VString "utf-8")])].

(** The tree [exception] serializes: [message = message || 'foo']. *)
Definition exception_json (message : option string) : value :=
  let message := or_string message "foo" in
  VObject [
    ("_declaration", declaration);
    ("ServiceExceptionReport", VObject [
      ("_attributes", VObject [("version", VString "1.1.1")]);
      ("ServiceException", VObject [("_text", VString message)])])].

(** [options = options || {}; const spaces = options.spaces || SPACES]
    of [exception]. *)
Definition exception_spaces (options : option ExceptionOptions.t) : Z :=
  let options :=
    match options with
    | Some o => o
    | None => ExceptionOptions.mk None
    end in
  or_number options.(ExceptionOptions.spaces) SPACES.

Section Builders.

(** The decimal rendering of a number, as [join] applies it. *)
Variable number_toString : Q -> string.

(** [convert.js2xml] of the xml-js package. *)
Variable js2xml : value -> Js2xml.t -> string.

(** [function TileSet (options)] *)
Definition TileSet (options : Options) : result value :=
  format <- truthy options.(format) "options.format is required" ;;
  identifier <- required options.(identifier) "options.identifier is required" ;;
  minzoom <- required options.(minzoom) "options.minzoom is required" ;;
  maxzoom <- required options.(maxzoom) "options.maxzoom is required" ;;
  let format := mime_format format in
  box <- BoundingBox (Some BBOX_METERS) (Some "EPSG:3857") ;;
  zoomResolutions <- resolutions minzoom maxzoom ;;
  OK (VObject [("TileSet", VObject [
    ("SRS", text "EPSG:3857");
    ("BoundingBox", box);
    ("Resolutions", text (join " " (map number_toString zoomResolutions)));
    ("Width", text "256");
    ("Height", text "256");
    ("Format", text ("image/" ++ format));
    ("Layers", text identifier)])]).

(** [function Capability (options)] *)
Definition Capability (options : Options) : result value :=
  request <- Request options ;;
  tileSet <- TileSet options ;;
  layer <- Layer options ;;
  OK (VObject [("Capability", VObject [
    ("Request", get "Request" request);
    ("Exception", VObject [
      ("Format", VArray [
        text "application/vnd.ogc.se_xml";
        text "application/vnd.ogc.se_inimage";
        text "application/vnd.ogc.se_blank"])]);
    ("VendorSpecificCapabilities", tileSet);
    ("Layer", get "Layer" layer)])]).

(** [function Capabilities (options)] *)
Definition Capabilities (options : Options) : result value :=
  _ <- truthy (normalize options.(url)) "<url> is required" ;;
  service <- Service options ;;
  capability <- Capability options ;;
  OK (VObject [
    ("WMT_MS_Capabilities",
      Object_assign
        [("_attributes", VObject [("version", VString "1.1.0")])]
        [service; capability])]).

(** The tree [getCapabilities] serializes. *)
Definition getCapabilities_json (options : Options) : result value :=
  capabilities <- Capabilities options ;;
  OK (VObject [
    ("_declaration", declaration);
    ("WMT_MS_Capabilities", get "WMT_MS_Capabilities" capabilities)]).

(** [function getCapabilities (options)] *)
Definition getCapabilities (options : option Options) : result string :=
  let options :=
    match options with
    | Some o => o
    | None => no_options
    end in
  let spaces := or_number options.(spaces) SPACES in
  json <- getCapabilities_json options ;;
  OK (js2xml json (Js2xml.mk true spaces)).

(** [function exception (message, options)] *)
Definition exception (message : option string)
  (options : option ExceptionOptions.t) : string :=
  js2xml (exception_json message) (Js2xml.mk true (exception_spaces options)).

End Builders.


(** Chained property access [v.k1.k2...]. *)
Definition select (path : list string) (v : value) : value :=
  fold_left (fun acc key => get key acc) path v.

(** The [ServiceExceptionReport] document for a message text. *)
Definition exception_report (message : string) : value :=
  VObject [
    ("_declaration", declaration);
    ("ServiceExceptionReport", VObject [
      ("_attributes", VObject [("version", VString "1.1.1")]);
      ("ServiceException", VObject [("_text", VString message)])])].

(** ** Vocabulary of the statements *)

(** The element [BoundingBox] emits for a box: the attributes [minx],
    [miny], [maxx], [maxy], after [SRS] when a label is given. *)
Definition bounding_box_element (srs : option string) (b : BBox) : value :=
  let '(west, south, east, north) := b in
  VObject [("_attributes", VObject (
    match srs with
    | Some label => [("SRS", VString label)]
    | None => []
    end ++
    [("minx", VNumber west);
     ("miny", VNumber south);
     ("maxx", VNumber east);
     ("maxy", VNumber north)]))].

(** The format as it enters a MIME type: [jpg] stands for [jpeg]. *)
Definition normalized (f : Format) : Format :=
  match f with
  | jpg => jpeg
  | other => other
  end.

(** The required options of [getCapabilities]. *)
Inductive required_field : Type :=
| field_title
| field_url
| field_format
| field_identifier
| field_minzoom
| field_maxzoom.

Definition field_name (f : required_field) : string :=
  match f with
  | field_title => "title"
  | field_url => "url"
  | field_format => "format"
  | field_identifier => "identifier"
  | field_minzoom => "minzoom"
  | field_maxzoom => "maxzoom"
  end.

(** The option is not set. *)
Definition undefined_field (o : Options) (f : required_field) : bool :=
  match f with
  | field_title => negb (defined o.(title))
  | field_url => negb (defined o.(url))
  | field_format => negb (defined o.(format))
  | field_identifier => negb (defined o.(identifier))
  | field_minzoom => negb (defined o.(minzoom))
  | field_maxzoom => negb (defined o.(maxzoom))
  end.

(** The option fails the check [getCapabilities] reaches first for it:
    [!x] for [url], [title] and [format], [x === undefined] for
    [identifier], [minzoom] and [maxzoom]. *)
Definition rejected (o : Options) (f : required_field) : bool :=
  match f with
  | field_title => negb (truthy_string o.(title))
  | field_url => negb (truthy_string o.(url))
  | field_format => negb (truthy_string o.(format))
  | field_identifier => negb (defined o.(identifier))
  | field_minzoom => negb (defined o.(minzoom))
  | field_maxzoom => negb (defined o.(maxzoom))
  end.

(** The order in which the builders reach these checks: [Capabilities]
    ([url]), [Service] ([title]), [Request] ([format]), [TileSet]
    ([identifier], [minzoom], [maxzoom]). *)
Definition check_order : list required_field :=
  [field_url; field_title; field_format; field_identifier; field_minzoom;
   field_maxzoom].

(** The place of an option in this order. *)
Definition check_position (f : required_field) : nat :=
  match f with
  | field_url => 0
  | field_title => 1
  | field_format => 2
  | field_identifier => 3
  | field_minzoom => 4
  | field_maxzoom => 5
  end.

Definition first_rejected (o : Options) : option required_field :=
  find (rejected o) check_order.

(** The message of the check that rejects the field. *)
Definition error_message (f : required_field) : string :=
  match f with
  | field_url => "<url> is required"
  | field_title => "options.title is required"
  | field_format => "options.format is required"
  | field_identifier => "options.identifier is required"
  | field_minzoom => "options.minzoom is required"
  | field_maxzoom => "options.maxzoom is required"
  end.

(** [s] occurs in [message]. *)
Definition mentions (message s : string) : bool :=
  match index 0 s message with
  | Some _ => true
  | None => false
  end.
(** ** The examples of the documentation and of the test suite *)

(** The examples of the documentation of [range]. *)
Theorem range_documented_examples :
  range (Finite 3) None None = OK [Finite 0; Finite 1; Finite 2]
  /\ range (Finite 3) (Some (Finite 6)) None
     = OK [Finite 3; Finite 4; Finite 5]
  /\ range (Finite 6) (Some (Finite 3)) (Some (Finite (-1)))
     = OK [Finite 6; Finite 5; Finite 4].
Proof. repeat split. Qed.

(** The examples of [clean] in the test suite: a property that is
    [undefined] is removed, a property that is 0 stays. *)
Theorem clean_test_suite_examples :
  clean (VObject [("foo", VNumber 10); ("bar", VUndefined)])
  = OK (VObject [("foo", VNumber 10)])
  /\ clean (VObject [("foo", VUndefined); ("bar", VUndefined)]) = OK (VObject [])
  /\ clean (VObject [("foo", VNumber 0)]) = OK (VObject [("foo", VNumber 0)]).
Proof. repeat split. Qed.

(** ** [normalize] *)

Lemma trailing_slash_no_match_here (s : string) :
  match_here trailing_slash s = None.
Proof. destruct s; reflexivity. Qed.

Lemma replace_without_match (r : regex) (replacement s : string) :
  test r s = false -> replace r replacement s = s.
Proof.
  induction s as [|c s IH]; simpl.
  - destruct (match_here r EmptyString); [discriminate | reflexivity].
  - destruct (match_here r (String c s)); [discriminate |].
    intros H. rewrite (IH H). reflexivity.
Qed.

Lemma trailing_slash_never_matches (s : string) : test trailing_slash s = false.
Proof.
  induction s as [|c s IH].
  - reflexivity.
  - change (test trailing_slash (String c s))
      with (match match_here trailing_slash (String c s) with
            | Some _ => true
            | None => test trailing_slash s
            end).
    rewrite trailing_slash_no_match_here. exact IH.
Qed.

Lemma normalize_Some (s : string) : normalize (Some s) = Some s.
Proof.
  unfold normalize.
  rewrite (replace_without_match _ _ _ (trailing_slash_never_matches s)).
  destruct (truthy_string (Some s)); reflexivity.
Qed.

Lemma normalize_unchanged (url : option string) : normalize url = url.
Proof. destruct url as [s|]; [apply normalize_Some | reflexivity]. Qed.

(** C8: the pattern [/$\//] matches in no string, and [normalize]
    returns every URL string as it is; a URL that ends in a slash keeps
    the slash. *)
Theorem normalize_is_identity (url : string) :
  test trailing_slash url = false
  /\ normalize (Some url) = Some url
  /\ normalize (Some (url ++ "/")) = Some (url ++ "/").
Proof.
  split; [apply trailing_slash_never_matches | split; apply normalize_Some].
Qed.

(** ** Tactics *)

(** Case analysis on the six required options, in the order of the
    checks, on a hypothesis or goal that mentions the options record. *)
Ltac by_checks u t f id mn mx tac :=
  destruct u as [[|? u]|]; [tac | | tac];
  destruct t as [[|? t]|]; [tac | | tac];
  destruct f as [[|? f]|]; [tac | | tac];
  destruct id as [id|]; [| tac];
  destruct mn as [mn|]; [| tac];
  destruct mx as [mx|]; [| tac].


(** Reduces an accepted call [H : getCapabilities_json _ o = OK json] to
    the tree it returns, for an options record [o] that is a variable. *)
Ltac accepted_tree H o :=
  let t := fresh "t" in
  let u := fresh "u" in
  let f := fresh "f" in
  let id := fresh "id" in
  let mn := fresh "mn" in
  let mx := fresh "mx" in
  destruct o as [t u f id mn mx ? ? ? ? ? ?];
  unfold getCapabilities_json, Capabilities in H;
  rewrite normalize_unchanged in H;
  cbn [title url format identifier minzoom maxzoom spaces with_bbox
       with_format with_spaces] in *;
  by_checks u t f id mn mx ltac:(cbn in H; discriminate H);
  cbn in H;
  destruct (resolutions mn mx) as [? | ?] eqn:?; [| discriminate H];
  cbn in H;
  injection H as H;
  subst.

(** [resolutions] is unfolded by its lemmas only. *)
Arguments resolutions : simpl never.

(** ** [range] and [resolutions] *)

Lemma progression_length (n : nat) (start step : Z) :
  length (progression n start step) = n.
Proof.
  revert start. induction n as [|n IH]; intros start; simpl.
  - reflexivity.
  - rewrite IH. reflexivity.
Qed.

Lemma progression_nth (n i : nat) (start step : Z) :
  (i < n)%nat -> nth i (progression n start step) 0 = start + Z.of_nat i * step.
Proof.
  revert i start. induction n as [|n IH]; intros i start Hi.
  - lia.
  - destruct i as [|i]; cbn [nth progression].
    + change (Z.of_nat 0) with 0. ring.
    + rewrite IH by lia. rewrite Nat2Z.inj_succ. ring.
Qed.

Lemma fl_int_exact (z : Z) : Z.abs z <= 2 ^ 53 -> fl_int z = Finite z.
Proof.
  intros H. unfold fl_int.
  destruct (Z.leb_spec (Z.abs z) (2 ^ 53)) as [_|Hgt]; [reflexivity | lia].
Qed.

(** While the sums stay within 2^53 the loop of [range] computes the
    exact progression. *)
Lemma range_loop_exact (n : nat) (start step : Z) :
  (forall i : nat, (i < n)%nat -> Z.abs (start + Z.of_nat i * step) <= 2 ^ 53) ->
  range_loop n (Finite start) (Finite step)
  = map Finite (progression n start step).
Proof.
  revert start. induction n as [|n IH]; intros start H; [reflexivity |].
  cbn [range_loop progression map]. f_equal.
  destruct n as [|n]; [reflexivity |].
  cbn [number_add]. rewrite fl_int_exact.
  - apply IH. intros i Hi.
    replace (start + step + Z.of_nat i * step)
      with (start + Z.of_nat (S i) * step) by (rewrite Nat2Z.inj_succ; ring).
    apply H. lia.
  - replace (start + step) with (start + Z.of_nat 1 * step)
      by (change (Z.of_nat 1) with 1; ring).
    apply H. lia.
Qed.

(** A quotient by 1 is exact below 2^53. *)
Lemma fl_quotient_by_1 (p : Z) :
  0 < p < 2 ^ 53 ->
  exists k : Z, 0 <= k /\ fl_quotient p 1 = (p * 2 ^ k, - k).
Proof.
  intros Hp. unfold fl_quotient.
  change (Z.log2 1) with 0. rewrite Z.sub_0_r.
  pose proof (Z.log2_nonneg p) as Hnonneg.
  pose proof (Z.log2_spec p (proj1 Hp)) as [Hlow _].
  assert (Hlog : Z.log2 p < 53) by (apply Z.log2_lt_pow2; lia).
  destruct (Z.leb_spec 0 (Z.log2 p)) as [_|Hneg]; [| lia].
  destruct (Z.leb_spec (1 * 2 ^ Z.log2 p) p) as [_|Hlt]; [| lia].
  exists (52 - Z.log2 p). split; [lia |].
  destruct (Z.leb_spec 0 (52 - Z.log2 p)) as [_|Hk]; [| lia].
  unfold round_half_even. rewrite Z.div_1_r, Z.mod_1_r.
  cbn [Z.mul Z.ltb Z.compare]. f_equal. lia.
Qed.

Lemma scaled_ceil_exact (p k : Z) :
  0 <= k -> scaled_ceil (p * 2 ^ k) (- k) = p.
Proof.
  intros Hk. unfold scaled_ceil.
  assert (Hpow : 0 < 2 ^ k) by (apply Z.pow_pos_nonneg; lia).
  destruct (Z.leb_spec 0 (- k)) as [H0|Hneg].
  - replace k with 0 by lia. cbn. lia.
  - rewrite Z.opp_involutive.
    replace (- (p * 2 ^ k)) with ((- p) * 2 ^ k) by ring.
    rewrite Z.div_mul by lia. lia.
Qed.

Lemma scaled_floor_exact (p k : Z) :
  0 <= k -> scaled_floor (p * 2 ^ k) (- k) = p.
Proof.
  intros Hk. unfold scaled_floor.
  assert (Hpow : 0 < 2 ^ k) by (apply Z.pow_pos_nonneg; lia).
  destruct (Z.leb_spec 0 (- k)) as [H0|Hneg].
  - replace k with 0 by lia. cbn. lia.
  - rewrite Z.opp_involutive. rewrite Z.div_mul by lia. reflexivity.
Qed.

Lemma number_div_ceil_by_1 (a : Z) :
  Z.abs a < 2 ^ 53 -> number_div_ceil (Finite a) (Finite 1) = Finite a.
Proof.
  intros H. unfold number_div_ceil. cbn [Z.eqb].
  destruct (Z.eqb_spec a 0) as [->|Ha]; [reflexivity |].
  change (Z.abs 1) with 1.
  destruct (fl_quotient_by_1 (Z.abs a) ltac:(lia)) as [k [Hk ->]].
  rewrite scaled_ceil_exact, scaled_floor_exact by exact Hk.
  change (1 <? 0) with false. rewrite xorb_false_r.
  destruct (Z.ltb_spec a 0); f_equal; lia.
Qed.

Lemma number_div_ceil_by_minus_1 (a : Z) :
  Z.abs a < 2 ^ 53 -> number_div_ceil (Finite a) (Finite (-1)) = Finite (- a).
Proof.
  intros H. unfold number_div_ceil. cbn [Z.eqb].
  destruct (Z.eqb_spec a 0) as [->|Ha]; [reflexivity |].
  change (Z.abs (-1)) with 1.
  destruct (fl_quotient_by_1 (Z.abs a) ltac:(lia)) as [k [Hk ->]].
  rewrite scaled_ceil_exact, scaled_floor_exact by exact Hk.
  change (-1 <? 0) with true. rewrite xorb_true_r.
  destruct (Z.ltb_spec a 0); cbn [negb]; f_equal; lia.
Qed.

(** [round_half_even n d] is within a half of [n / d]. *)
Lemma round_half_even_spec (n d : Z) :
  0 < d -> - d <= 2 * (round_half_even n d * d - n) <= d.
Proof.
  intros Hd. unfold round_half_even.
  pose proof (Z.div_mod n d ltac:(lia)) as E.
  pose proof (Z.mod_pos_bound n d Hd) as B.
  destruct (Z.ltb_spec (2 * (n mod d)) d) as [H1|H1]; [nia |].
  destruct (Z.ltb_spec d (2 * (n mod d))) as [H2|H2]; [nia |].
  destruct (Z.even (n / d)); nia.
Qed.

(** The significand of a quotient below 2^53: its scale [2 ^ k] is more
    than half the divisor. *)
Lemma fl_quotient_spec (p d : Z) :
  0 < p < 2 ^ 53 -> 0 < d ->
  exists m k : Z,
    fl_quotient p d = (m, - k)
    /\ 0 <= k
    /\ d < 2 * 2 ^ k
    /\ - d <= 2 * (m * d - p * 2 ^ k) <= d.
Proof.
  intros Hp Hd. unfold fl_quotient.
  pose proof (Z.log2_nonneg p) as Hp0.
  pose proof (Z.log2_nonneg d) as Hd0.
  assert (Hlog : Z.log2 p < 53) by (apply Z.log2_lt_pow2; lia).
  pose proof (Z.log2_spec d Hd) as [_ Hdhigh].
  set (e0 := Z.log2 p - Z.log2 d).
  set (e := if (if 0 <=? e0 then d * 2 ^ e0 <=? p else d <=? p * 2 ^ (- e0))
            then e0 else e0 - 1).
  assert (He : e <= e0) by (unfold e; destruct (if 0 <=? e0 then _ else _); lia).
  exists (round_half_even (p * 2 ^ (52 - e)) d), (52 - e).
  assert (Hk : Z.log2 d <= 52 - e) by (unfold e0 in He; lia).
  destruct (Z.leb_spec 0 (52 - e)) as [_|Hneg]; [| lia].
  split; [f_equal; lia |].
  split; [lia |].
  split.
  - assert (2 ^ Z.succ (Z.log2 d) <= 2 ^ Z.succ (52 - e))
      by (apply Z.pow_le_mono_r; lia).
    rewrite Z.pow_succ_r in H by lia. rewrite Z.pow_succ_r in H by lia.
    rewrite Z.pow_succ_r in Hdhigh by lia. lia.
  - apply round_half_even_spec. exact Hd.
Qed.

(** Rounding at such a scale moves neither the floor nor the ceiling. *)
Lemma ceil_of_rounded_quotient (p d m K : Z) :
  0 < d -> 0 < K -> d < 2 * K ->
  - d <= 2 * (m * d - p * K) <= d ->
  (- m) / K = (- p) / d /\ m / K = p / d.
Proof.
  intros Hd HK HdK Hm. split.
  - symmetry. apply Z.div_unique_pos with (r := - m - K * ((- p) / d)); [| ring].
    pose proof (Z.div_mod (- p) d ltac:(lia)) as E.
    pose proof (Z.mod_pos_bound (- p) d Hd) as B.
    set (N := (- p) / d) in *.
    split.
    + (* m <= - N * K *)
      destruct (Z.le_gt_cases (K * N) (- m)) as [H|H]; [lia |].
      exfalso.
      assert (H1 : - N * K + 1 <= m) by lia.
      assert (H2 : (- N * K + 1) * d <= m * d) by nia.
      assert (H3 : p * K <= - N * d * K) by nia.
      nia.
    + destruct (Z.lt_ge_cases (- m - K * N) K) as [H|H]; [exact H |].
      exfalso.
      assert (H1 : m <= - (N + 1) * K) by lia.
      assert (H2 : m * d <= - (N + 1) * K * d) by nia.
      assert (H3 : - (N + 1) * d <= p - 1) by nia.
      assert (H4 : - (N + 1) * d * K <= (p - 1) * K) by nia.
      nia.
  - symmetry. apply Z.div_unique_pos with (r := m - K * (p / d)); [| ring].
    pose proof (Z.div_mod p d ltac:(lia)) as E.
    pose proof (Z.mod_pos_bound p d Hd) as B.
    set (F := p / d) in *.
    split.
    + destruct (Z.le_gt_cases (K * F) m) as [H|H]; [lia |].
      exfalso.
      assert (H1 : m <= F * K - 1) by lia.
      assert (H2 : m * d <= (F * K - 1) * d) by nia.
      assert (H3 : F * d * K <= p * K) by nia.
      nia.
    + destruct (Z.lt_ge_cases (m - K * F) K) as [H|H]; [exact H |].
      exfalso.
      assert (H1 : (F + 1) * K <= m) by lia.
      assert (H2 : (F + 1) * K * d <= m * d) by nia.
      assert (H3 : p + 1 <= (F + 1) * d) by nia.
      assert (H4 : (p + 1) * K <= (F + 1) * d * K) by nia.
      nia.
Qed.

Lemma scaled_ceil_down (m k : Z) :
  0 <= k -> scaled_ceil m (- k) = - ((- m) / 2 ^ k).
Proof.
  intros Hk. unfold scaled_ceil.
  destruct (Z.leb_spec 0 (- k)) as [H0|Hneg].
  - replace k with 0 by lia. change (- 0) with 0. change (2 ^ 0) with 1.
    rewrite Z.div_1_r. lia.
  - rewrite Z.opp_involutive. reflexivity.
Qed.

Lemma scaled_floor_down (m k : Z) :
  0 <= k -> scaled_floor m (- k) = m / 2 ^ k.
Proof.
  intros Hk. unfold scaled_floor.
  destruct (Z.leb_spec 0 (- k)) as [H0|Hneg].
  - replace k with 0 by lia. change (- 0) with 0. change (2 ^ 0) with 1.
    rewrite Z.div_1_r. lia.
  - rewrite Z.opp_involutive. reflexivity.
Qed.

(** Below 2^53 the rounding of the quotient does not move its ceiling. *)
Lemma number_div_ceil_exact (a b : Z) :
  Z.abs a < 2 ^ 53 -> b <> 0 ->
  number_div_ceil (Finite a) (Finite b) = Finite (ceil_quotient a b).
Proof.
  intros Ha Hb. unfold number_div_ceil, ceil_quotient.
  destruct (Z.eqb_spec b 0) as [E|_]; [contradiction |].
  destruct (Z.eqb_spec a 0) as [->|Ha0]; [reflexivity |].
  destruct (fl_quotient_spec (Z.abs a) (Z.abs b) ltac:(lia) ltac:(lia))
    as [m [k [-> [Hk [HdK Hm]]]]].
  assert (HK : 0 < 2 ^ k) by (apply Z.pow_pos_nonneg; lia).
  destruct (ceil_of_rounded_quotient (Z.abs a) (Z.abs b) m (2 ^ k)
              ltac:(lia) HK HdK Hm) as [Hceil Hfloor].
  rewrite scaled_ceil_down, scaled_floor_down by exact Hk.
  rewrite Hceil, Hfloor.
  destruct (Z.ltb_spec a 0) as [Hneg|Hpos];
    destruct (Z.ltb_spec b 0) as [Hbneg|Hbpos]; cbn [xorb]; f_equal.
  - rewrite Z.abs_neq by lia. rewrite Z.abs_neq by lia.
    rewrite Z.opp_involutive.
    rewrite <- (Z.div_opp_opp a (- b)) by lia. rewrite Z.opp_involutive.
    reflexivity.
  - rewrite Z.abs_neq by lia. rewrite Z.abs_eq by lia. reflexivity.
  - rewrite Z.abs_eq by lia. rewrite Z.abs_neq by lia.
    rewrite <- (Z.div_opp_opp a (- b)) by lia. rewrite Z.opp_involutive.
    reflexivity.
  - rewrite Z.abs_eq by lia. rewrite Z.abs_eq by lia. reflexivity.
Qed.

Lemma ceil_quotient_positive_step (a b i : Z) :
  0 < b -> (i < ceil_quotient a b <-> i * b < a).
Proof.
  intros Hb. unfold ceil_quotient.
  pose proof (Z.div_mod (- a) b ltac:(lia)) as E.
  pose proof (Z.mod_pos_bound (- a) b Hb) as B.
  split; intros H; nia.
Qed.

Lemma ceil_quotient_negative_step (a b i : Z) :
  b < 0 -> (i < ceil_quotient a b <-> a < i * b).
Proof.
  intros Hb. unfold ceil_quotient.
  pose proof (Z.div_mod (- a) b ltac:(lia)) as E.
  pose proof (Z.mod_neg_bound (- a) b Hb) as B.
  split; intros H; nia.
Qed.

Lemma ceil_quotient_by_1 (a : Z) : ceil_quotient a 1 = a.
Proof. unfold ceil_quotient. rewrite Z.div_1_r. lia. Qed.

Lemma ceil_quotient_by_minus_1 (a : Z) : ceil_quotient a (-1) = - a.
Proof.
  unfold ceil_quotient.
  pose proof (Z.div_mod (- a) (-1) ltac:(lia)) as E.
  pose proof (Z.mod_neg_bound (- a) (-1) ltac:(lia)) as B.
  lia.
Qed.

Lemma number_or_nonzero (step : Z) (default : number) :
  step <> 0 -> number_or (Some (Finite step)) default = Finite step.
Proof. destruct step; [contradiction | |]; reflexivity. Qed.

(** With [stop] and a [step] other than 0, [start], [stop] and their
    difference held exactly by a double: the length is the ceiling of
    the exact quotient, [Array] throws from 2^32 on, and below it the
    loop computes the exact progression. *)
Lemma range_with_step (start stop step : Z) :
  step <> 0 ->
  Z.abs start <= 2 ^ 53 -> Z.abs stop <= 2 ^ 53 ->
  Z.abs (stop - start) < 2 ^ 53 ->
  range (Finite start) (Some (Finite stop)) (Some (Finite step))
  = if ceil_quotient (stop - start) step <? 2 ^ 32
    then OK (map Finite
               (progression (Z.to_nat (ceil_quotient (stop - start) step))
                  start step))
    else Throw "Invalid array length".
Proof.
  intros Hstep Hs Ht Hd. unfold range.
  rewrite number_or_nonzero by exact Hstep.
  cbn [number_sub number_opp number_add].
  rewrite fl_int_exact by lia.
  replace (stop + - start) with (stop - start) by ring.
  rewrite number_div_ceil_exact by assumption.
  set (c := ceil_quotient (stop - start) step).
  cbn [number_max0 Array].
  destruct (Z.leb_spec 0 (Z.max c 0)) as [_|H0]; [| lia].
  destruct (Z.ltb_spec c (2 ^ 32)) as [Hc|Hc];
    destruct (Z.ltb_spec (Z.max c 0) (2 ^ 32)) as [Hm|Hm]; try lia;
    cbn [andb bind]; [| reflexivity].
  replace (Z.to_nat (Z.max c 0)) with (Z.to_nat c) by lia.
  f_equal. apply range_loop_exact.
  intros i Hi.
  assert (Hlt : Z.of_nat i < c) by lia.
  destruct (Z.lt_total step 0) as [Hneg|[E|Hpos]]; [| contradiction |].
  - apply ceil_quotient_negative_step in Hlt; [| exact Hneg]. nia.
  - apply ceil_quotient_positive_step in Hlt; [| exact Hpos]. nia.
Qed.

(** A [step] left out is 1, or -1 when [stop < start]. *)
Lemma range_default_step (start stop : Z) :
  range (Finite start) (Some (Finite stop)) None
  = range (Finite start) (Some (Finite stop))
      (Some (Finite (if stop <? start then -1 else 1))).
Proof.
  unfold range. cbn [number_or number_lt].
  destruct (stop <? start); reflexivity.
Qed.

(** The only error of [range] and of [resolutions] is the RangeError of
    [Array]. *)
Lemma range_error (start : number) (stop step : option number) (message : string) :
  range start stop step = Throw message -> message = "Invalid array length".
Proof.
  unfold range.
  destruct (match stop with
            | Some stop0 => (start, stop0)
            | None => (Finite 0, number_or (Some start) (Finite 0))
            end) as [start' stop'].
  set (length := number_max0 _).
  destruct length as [n | negative |]; cbn [Array];
    [destruct ((0 <=? n) && (n <? 2 ^ 32)) | |]; cbn [bind];
    congruence.
Qed.

Lemma resolutions_error (minzoom maxzoom : Z) (message : string) :
  resolutions minzoom maxzoom = Throw message ->
  message = "Invalid array length".
Proof.
  unfold resolutions.
  destruct (range (Finite minzoom)
              (Some (number_add (Finite maxzoom) (Finite 1))) None)
    as [zooms|e] eqn:E; cbn [bind]; [discriminate |].
  intros [= <-]. exact (range_error _ _ _ _ E).
Qed.

(** With both zoom levels, [maxzoom + 1] and the difference held exactly
    by a double, [resolutions] throws from 2^32 zoom levels on. *)
Lemma resolutions_range_error (minzoom maxzoom : Z) :
  - 2 ^ 53 <= minzoom <= 2 ^ 53 ->
  - 2 ^ 53 <= maxzoom < 2 ^ 53 ->
  2 ^ 32 <= Z.abs (maxzoom + 1 - minzoom) < 2 ^ 53 ->
  resolutions minzoom maxzoom = Throw "Invalid array length".
Proof.
  intros Hmin Hmax Hlen. unfold resolutions.
  cbn [number_add]. rewrite fl_int_exact by lia.
  rewrite range_default_step.
  rewrite range_with_step by (try destruct (maxzoom + 1 <? minzoom); lia).
  destruct (Z.ltb_spec (maxzoom + 1) minzoom) as [Hlt|Hge].
  - assert (2 ^ 32 <= ceil_quotient (maxzoom + 1 - minzoom) (-1))
      by (rewrite ceil_quotient_by_minus_1; lia).
    destruct (Z.ltb_spec (ceil_quotient (maxzoom + 1 - minzoom) (-1)) (2 ^ 32));
      [lia | reflexivity].
  - assert (2 ^ 32 <= ceil_quotient (maxzoom + 1 - minzoom) 1)
      by (rewrite ceil_quotient_by_1; lia).
    destruct (Z.ltb_spec (ceil_quotient (maxzoom + 1 - minzoom) 1) (2 ^ 32));
      [lia | reflexivity].
Qed.

(** With [stop] given and no [step], within 2^53 and for fewer than
    2^32 entries, [range] counts up from [start] to [stop - 1], or down
    from [start] to [stop + 1]. *)
Lemma range_up (start stop : Z) :
  Z.abs start <= 2 ^ 53 -> Z.abs stop <= 2 ^ 53 ->
  start <= stop -> stop - start < 2 ^ 32 ->
  range (Finite start) (Some (Finite stop)) None
  = OK (map Finite (progression (Z.to_nat (stop - start)) start 1)).
Proof.
  intros Hs Ht Hle Hlen. unfold range.
  cbn [number_or number_lt number_sub number_opp number_add].
  destruct (Z.ltb_spec stop start) as [Hlt|_]; [lia |].
  rewrite fl_int_exact by lia.
  replace (stop + - start) with (stop - start) by ring.
  rewrite number_div_ceil_by_1 by lia.
  cbn [number_max0 Array]. rewrite Z.max_l by lia.
  destruct (Z.leb_spec 0 (stop - start)) as [_|H0]; [| lia].
  destruct (Z.ltb_spec (stop - start) (2 ^ 32)) as [_|H1]; [| lia].
  cbn [andb bind]. f_equal. apply range_loop_exact.
  intros i Hi. lia.
Qed.

Lemma range_down (start stop : Z) :
  Z.abs start <= 2 ^ 53 -> Z.abs stop <= 2 ^ 53 ->
  stop < start -> start - stop < 2 ^ 32 ->
  range (Finite start) (Some (Finite stop)) None
  = OK (map Finite (progression (Z.to_nat (start - stop)) start (-1))).
Proof.
  intros Hs Ht Hlt Hlen. unfold range.
  cbn [number_or number_lt number_sub number_opp number_add].
  destruct (Z.ltb_spec stop start) as [_|Hge]; [| lia].
  rewrite fl_int_exact by lia.
  replace (stop + - start) with (stop - start) by ring.
  rewrite number_div_ceil_by_minus_1 by lia.
  cbn [number_max0 Array]. rewrite Z.max_l by lia.
  replace (- (stop - start)) with (start - stop) by ring.
  destruct (Z.leb_spec 0 (start - stop)) as [_|H0]; [| lia].
  destruct (Z.ltb_spec (start - stop) (2 ^ 32)) as [_|H1]; [| lia].
  cbn [andb bind]. f_equal. apply range_loop_exact.
  intros i Hi. lia.
Qed.

(** On an exact zoom range [resolutions] returns the resolutions of the
    zoom levels in between. *)
Lemma resolutions_exact (minzoom maxzoom : Z) :
  exact_zoom_range minzoom maxzoom ->
  resolutions minzoom maxzoom = OK (map resolution (zoom_levels minzoom maxzoom)).
Proof.
  intros [Hmin [Hmax Hlen]]. unfold resolutions, zoom_levels.
  cbn [number_add]. rewrite fl_int_exact by lia.
  destruct (Z.ltb_spec (maxzoom + 1) minzoom) as [Hlt|Hge].
  - rewrite range_down by lia. cbn [bind]. rewrite map_map.
    replace (minzoom - (maxzoom + 1)) with (minzoom - maxzoom - 1) by ring.
    reflexivity.
  - rewrite range_up by lia. cbn [bind]. rewrite map_map. reflexivity.
Qed.

Lemma nth_map_resolution (l : list Z) (i : nat) (d : Q) :
  (i < length l)%nat -> nth i (map resolution l) d = resolution (nth i l 0).
Proof.
  intros H.
  rewrite (nth_indep _ d (resolution 0)) by (rewrite length_map; exact H).
  apply map_nth.
Qed.

Lemma circumference_positive : (0 < circumference)%Q.
Proof. reflexivity. Qed.

Lemma resolution_antitone (z z' : Z) :
  z < z' -> (resolution z' < resolution z)%Q.
Proof.
  intros H. unfold resolution.
  assert (Hp : (0 < (2 # 1) ^ z)%Q) by (apply Qpower_0_lt; reflexivity).
  assert (Hp' : (0 < (2 # 1) ^ z')%Q) by (apply Qpower_0_lt; reflexivity).
  assert (Hlt : ((2 # 1) ^ z < (2 # 1) ^ z')%Q)
    by (apply Qpower_lt_compat_l; [exact H | reflexivity]).
  assert (Hd : (0 < 256 * (2 # 1) ^ z)%Q).
  { apply Qmult_lt_0_compat; [reflexivity | exact Hp]. }
  assert (Hd' : (0 < 256 * (2 # 1) ^ z')%Q).
  { apply Qmult_lt_0_compat; [reflexivity | exact Hp']. }
  apply Qlt_shift_div_r; [exact Hd' |].
  assert (E : (circumference / (256 * (2 # 1) ^ z) * (256 * (2 # 1) ^ z')
               == circumference * (256 * (2 # 1) ^ z') / (256 * (2 # 1) ^ z))%Q).
  { field. intros E0. rewrite E0 in Hp. discriminate Hp. }
  rewrite E.
  apply Qlt_shift_div_l; [exact Hd |].
  apply Qmult_lt_l; [exact circumference_positive |].
  apply Qmult_lt_l; [reflexivity | exact Hlt].
Qed.

Lemma progression_up_lower_bound (n : nat) (start z : Z) :
  In z (progression n start 1) -> start <= z.
Proof.
  revert start. induction n as [|n IH]; intros start; simpl.
  - intros [].
  - intros [<-|H]; [lia |]. apply IH in H. lia.
Qed.

Lemma progression_up_decreasing (n : nat) (start : Z) :
  strictly_decreasing (map resolution (progression n start 1)).
Proof.
  unfold strictly_decreasing. revert start.
  induction n as [|n IH]; intros start; simpl.
  - apply SSorted_nil.
  - apply SSorted_cons; [apply IH |].
    apply Forall_forall. intros q Hq.
    apply in_map_iff in Hq. destruct Hq as [z [<- Hz]].
    apply progression_up_lower_bound in Hz.
    apply resolution_antitone. lia.
Qed.

(** With [minzoom <= maxzoom], both held exactly by a double
    ([maxzoom + 1] too) and fewer than 2^32 zoom levels, the result
    holds one resolution per zoom level from [minzoom] to [maxzoom], in
    this order, each smaller than the one before it. *)
Theorem resolutions_minzoom_to_maxzoom (minzoom maxzoom : Z) :
  minzoom <= maxzoom ->
  - 2 ^ 53 <= minzoom ->
  maxzoom < 2 ^ 53 ->
  maxzoom - minzoom + 1 < 2 ^ 32 ->
  exists l : list Q,
    resolutions minzoom maxzoom = OK l
    /\ length l = Z.to_nat (maxzoom - minzoom + 1)
    /\ (forall i : nat,
          (i < Z.to_nat (maxzoom - minzoom + 1))%nat ->
          nth i l 0%Q = resolution (minzoom + Z.of_nat i))
    /\ strictly_decreasing l.
Proof.
  intros H Hmin Hmax Hlen.
  rewrite resolutions_exact by (unfold exact_zoom_range; lia).
  unfold zoom_levels.
  destruct (Z.ltb_spec (maxzoom + 1) minzoom) as [Hlt|_]; [lia |].
  replace (maxzoom + 1 - minzoom) with (maxzoom - minzoom + 1) by lia.
  eexists. split; [reflexivity |]. split; [| split].
  - rewrite length_map. apply progression_length.
  - intros i Hi.
    rewrite nth_map_resolution by (rewrite progression_length; exact Hi).
    rewrite progression_nth by exact Hi. f_equal. ring.
  - apply progression_up_decreasing.
Qed.

Lemma resolutions_minzoom_to_maxzoom_witness :
  exists l : list Q,
    resolutions 10 18 = OK l
    /\ length l = Z.to_nat (18 - 10 + 1)
    /\ (forall i : nat,
          (i < Z.to_nat (18 - 10 + 1))%nat ->
          nth i l 0%Q = resolution (10 + Z.of_nat i))
    /\ strictly_decreasing l.
Proof.
  apply (resolutions_minzoom_to_maxzoom 10 18); lia.
Defined.

(** C5, the counterexample: [2^53 + 1] is no double and rounds to
    [2^53], so [resolutions] of the zoom levels [2^53] and [2^53] is the
    empty range from [2^53] to [2^53], not the one value
    [resolution (2^53)]. *)
Lemma resolutions_at_2_53_is_empty :
  number_add (Finite (2 ^ 53)) (Finite 1) = Finite (2 ^ 53)
  /\ resolutions (2 ^ 53) (2 ^ 53) = OK []
  /\ OK [] <> OK [resolution (2 ^ 53)].
Proof.
  split; [reflexivity |]. split; [reflexivity | discriminate].
Qed.

(** C5, as amended: for an integer [z] with [-2^53 <= z < 2^53],
    [resolutions z z] is the single value [resolution z]; and
    [resolutions 10 18] has nine values, each smaller than the one
    before it. *)
Theorem resolutions_single_zoom_within_2_53 (z : Z) :
  - 2 ^ 53 <= z < 2 ^ 53 ->
  resolutions z z = OK [resolution z]
  /\ exists l : list Q,
       resolutions 10 18 = OK l
       /\ length l = 9%nat
       /\ strictly_decreasing l.
Proof.
  intros Hz. split.
  - rewrite resolutions_exact by (unfold exact_zoom_range; lia).
    unfold zoom_levels.
    destruct (Z.ltb_spec (z + 1) z) as [Hlt|_]; [lia |].
    replace (z + 1 - z) with 1 by lia. reflexivity.
  - rewrite resolutions_exact by (unfold exact_zoom_range; lia).
    eexists. split; [reflexivity |]. split; [reflexivity |].
    apply (progression_up_decreasing 9 10).
Qed.

Lemma resolutions_single_zoom_within_2_53_witness :
  - 2 ^ 53 <= 0 < 2 ^ 53
  /\ resolutions 0 0 = OK [resolution 0].
Proof.
  split; [lia |].
  apply (resolutions_single_zoom_within_2_53 0). lia.
Defined.

(** C3, the counterexamples: with [maxzoom = 2 < 5 = minzoom] the
    result holds the two resolutions of the zoom levels 5 and 4; and
    with [maxzoom = 0 < 4294967297 = minzoom] the range would have 2^32
    entries, and [Array] signals a RangeError. *)
Lemma resolutions_5_2_not_empty :
  2 < 5
  /\ resolutions 5 2 = OK [resolution 5; resolution 4]
  /\ OK [resolution 5; resolution 4] <> OK (@nil Q)
  /\ 0 < 4294967297
  /\ resolutions 4294967297 0 = Throw "Invalid array length".
Proof.
  split; [lia |]. split; [reflexivity |]. split; [discriminate |].
  split; [lia | reflexivity].
Qed.

(** C3, as amended: for [maxzoom < minzoom], with [-2^53 <= maxzoom],
    [minzoom <= 2^53] and fewer than 2^32 zoom levels in between, no
    error is signalled and the result holds the [minzoom - maxzoom - 1]
    resolutions of the zoom levels [minzoom], [minzoom - 1], ...,
    [maxzoom + 2], in this order; it is empty exactly when
    [maxzoom = minzoom - 1]. *)
Theorem resolutions_maxzoom_below_minzoom (minzoom maxzoom : Z) :
  maxzoom < minzoom ->
  - 2 ^ 53 <= maxzoom ->
  minzoom <= 2 ^ 53 ->
  minzoom - maxzoom - 1 < 2 ^ 32 ->
  exists l : list Q,
    resolutions minzoom maxzoom = OK l
    /\ length l = Z.to_nat (minzoom - maxzoom - 1)
    /\ (forall i : nat,
          (i < Z.to_nat (minzoom - maxzoom - 1))%nat ->
          nth i l 0%Q = resolution (minzoom - Z.of_nat i))
    /\ (l = [] <-> maxzoom = minzoom - 1).
Proof.
  intros H Hmax Hmin Hlen.
  rewrite resolutions_exact by (unfold exact_zoom_range; lia).
  assert (E : zoom_levels minzoom maxzoom
              = progression (Z.to_nat (minzoom - maxzoom - 1)) minzoom (-1)).
  { unfold zoom_levels.
    destruct (Z.ltb_spec (maxzoom + 1) minzoom) as [_|Hge]; [reflexivity |].
    replace (Z.to_nat (maxzoom + 1 - minzoom)) with O by lia.
    replace (Z.to_nat (minzoom - maxzoom - 1)) with O by lia.
    reflexivity. }
  rewrite E. eexists. split; [reflexivity |]. split; [| split].
  - rewrite length_map. apply progression_length.
  - intros i Hi.
    rewrite nth_map_resolution by (rewrite progression_length; exact Hi).
    rewrite progression_nth by exact Hi. f_equal. ring.
  - split.
    + intros Hnil. apply (f_equal (@length Q)) in Hnil.
      rewrite length_map, progression_length in Hnil. simpl in Hnil. lia.
    + intros ->.
      replace (Z.to_nat (minzoom - (minzoom - 1) - 1)) with O by lia.
      reflexivity.
Qed.

Lemma resolutions_maxzoom_below_minzoom_witness :
  exists l : list Q,
    resolutions 5 2 = OK l
    /\ length l = Z.to_nat (5 - 2 - 1)
    /\ (forall i : nat,
          (i < Z.to_nat (5 - 2 - 1))%nat ->
          nth i l 0%Q = resolution (5 - Z.of_nat i))
    /\ (l = [] <-> 2 = 5 - 1).
Proof.
  apply (resolutions_maxzoom_below_minzoom 5 2); lia.
Defined.

(** ** [exception] *)

Lemma exception_json_placeholder (message : option string) :
  truthy_string message = false -> exception_json message = exception_report "foo".
Proof.
  destruct message as [[|c s]|]; simpl; intros H;
    [reflexivity | discriminate | reflexivity].
Qed.





(** C9: the empty message is treated as an omitted one, and the text of
    the [ServiceException] element is then the placeholder ["foo"]. *)
Theorem exception_empty_message_as_omitted
  (js2xml : value -> Js2xml.t -> string) (options : option ExceptionOptions.t) :
  exception js2xml (Some "") options = exception js2xml None options
  /\ exception js2xml (Some "") options
     = js2xml (exception_report "foo") (Js2xml.mk true (exception_spaces options))
  /\ select ["ServiceExceptionReport"; "ServiceException"; "_text"]
       (exception_report "foo") = VString "foo".
Proof.
  unfold exception.
  rewrite (exception_json_placeholder (Some "")) by reflexivity.
  rewrite (exception_json_placeholder None) by reflexivity.
  repeat split.
Qed.

(** ** Validation in [getCapabilities] *)

Section Validation.

Variable number_toString : Q -> string.
Variable js2xml : value -> Js2xml.t -> string.

Lemma getCapabilities_throws (o : Options) (f : required_field) :
  first_rejected o = Some f ->
  getCapabilities number_toString js2xml (Some o) = Throw (error_message f).
Proof.
  destruct o as [t u fmt id mn mx sp ab bb kw ac fe].
  unfold getCapabilities, getCapabilities_json, Capabilities.
  cbn [title url format identifier minzoom maxzoom spaces].
  rewrite normalize_unchanged.
  by_checks u t fmt id mn mx ltac:(cbn; intros [= <-]; reflexivity).
  cbn. discriminate.
Qed.

(** Past the checks the document is built when [resolutions] returns. *)
Lemma getCapabilities_accepts (o : Options) :
  first_rejected o = None ->
  (forall mn mx : Z,
     o.(minzoom) = Some mn -> o.(maxzoom) = Some mx ->
     exists l : list Q, resolutions mn mx = OK l) ->
  exists json : value,
    getCapabilities_json number_toString o = OK json
    /\ getCapabilities number_toString js2xml (Some o)
       = OK (js2xml json (Js2xml.mk true (or_number o.(spaces) SPACES))).
Proof.
  destruct o as [t u fmt id mn mx sp ab bb kw ac fe].
  unfold getCapabilities, getCapabilities_json, Capabilities.
  cbn [title url format identifier minzoom maxzoom spaces].
  rewrite normalize_unchanged.
  by_checks u t fmt id mn mx ltac:(cbn; discriminate).
  intros _ Hres. destruct (Hres mn mx eq_refl eq_refl) as [l Hl].
  cbn. rewrite Hl. cbn. eexists. split; reflexivity.
Qed.

(** The options of the test suite are accepted. *)
Lemma test_options_accepted :
  exists json : value,
    getCapabilities_json number_toString test_options = OK json
    /\ getCapabilities number_toString js2xml (Some test_options)
       = OK (js2xml json (Js2xml.mk true 2)).
Proof.
  apply (getCapabilities_accepts test_options eq_refl).
  intros mn mx [= <-] [= <-].
  rewrite resolutions_exact by (unfold exact_zoom_range; lia).
  eexists. reflexivity.
Qed.

Lemma rejected_has_first (o : Options) (f : required_field) :
  rejected o f = true ->
  exists g, first_rejected o = Some g /\ rejected o g = true.
Proof.
  intros H. unfold first_rejected.
  destruct (find (rejected o) check_order) as [g|] eqn:E.
  - exists g. split; [reflexivity |]. apply (find_some _ _ E).
  - assert (In f check_order) as Hin by (destruct f; simpl; tauto).
    rewrite (find_none _ _ E f Hin) in H. discriminate.
Qed.

Lemma undefined_is_rejected (o : Options) (f : required_field) :
  undefined_field o f = true -> rejected o f = true.
Proof.
  destruct o as [t u fmt id mn mx sp ab bb kw ac fe].
  destruct f; cbn;
    [destruct t | destruct u | destruct fmt | | | ];
    cbn; congruence.
Qed.

Lemma error_message_mentions_field (f : required_field) :
  mentions (error_message f) (field_name f) = true.
Proof. destruct f; reflexivity. Qed.

(** The first rejected option has none rejected before it. *)
Lemma first_rejected_is_first (o : Options) (g h : required_field) :
  first_rejected o = Some g ->
  (check_position h < check_position g)%nat ->
  rejected o h = false.
Proof.
  unfold first_rejected, check_order. cbn [find].
  destruct (rejected o field_url) eqn:E1;
    [intros [= <-]; destruct h; cbn; intros; try lia; assumption |].
  destruct (rejected o field_title) eqn:E2;
    [intros [= <-]; destruct h; cbn; intros; try lia; assumption |].
  destruct (rejected o field_format) eqn:E3;
    [intros [= <-]; destruct h; cbn; intros; try lia; assumption |].
  destruct (rejected o field_identifier) eqn:E4;
    [intros [= <-]; destruct h; cbn; intros; try lia; assumption |].
  destruct (rejected o field_minzoom) eqn:E5;
    [intros [= <-]; destruct h; cbn; intros; try lia; assumption |].
  destruct (rejected o field_maxzoom) eqn:E6;
    [intros [= <-]; destruct h; cbn; intros; try lia; assumption |].
  discriminate.
Qed.

(** Without an options argument the first check fails. *)
Lemma getCapabilities_no_options :
  getCapabilities number_toString js2xml None = Throw "<url> is required".
Proof. reflexivity. Qed.

(** C2, as amended: when a required option is undefined,
    [getCapabilities] throws one error and returns no document.  The
    error is that of the first check that fails, in the order [url],
    [title], [format], [identifier], [minzoom], [maxzoom]; its message
    names the option this check rejects, an option that is undefined or,
    for [url], [title] and [format], empty, with no rejected option
    checked before it.  It names the undefined option when none of the
    options checked before that one is rejected. *)
Theorem getCapabilities_missing_field (o : Options) (f : required_field) :
  undefined_field o f = true ->
  exists g : required_field,
    first_rejected o = Some g
    /\ getCapabilities number_toString js2xml (Some o) = Throw (error_message g)
    /\ mentions (error_message g) (field_name g) = true
    /\ rejected o g = true
    /\ (forall h, (check_position h < check_position g)%nat ->
                  rejected o h = false)
    /\ ((forall h, (check_position h < check_position f)%nat ->
                   rejected o h = false) ->
        g = f).
Proof.
  intros H. apply undefined_is_rejected in H.
  destruct (rejected_has_first o f H) as [g [Hfirst Hg]].
  exists g.
  split; [exact Hfirst |].
  split; [apply getCapabilities_throws; exact Hfirst |].
  split; [apply error_message_mentions_field |].
  split; [exact Hg |].
  split; [intros h; apply first_rejected_is_first; exact Hfirst |].
  intros Hbefore.
  destruct (Nat.lt_trichotomy (check_position g) (check_position f))
    as [Hlt|[Heq|Hgt]].
  - rewrite (Hbefore g Hlt) in Hg. discriminate Hg.
  - destruct g, f; cbn in Heq; try discriminate Heq; reflexivity.
  - rewrite (first_rejected_is_first o g f Hfirst Hgt) in H. discriminate H.
Qed.

(** C10, as amended: with non-empty [title], [url] and [format] and
    with [minzoom] and [maxzoom] defined on an exact zoom range (both
    held exactly by a double, fewer than 2^32 zoom levels in between),
    the empty string as [identifier] is accepted and a document is
    returned, while an undefined [identifier] is rejected; an empty
    [title], [url] or [format] makes one of the checks on these three
    options throw. *)
Theorem getCapabilities_empty_strings (o : Options) :
  (truthy_string o.(title) = true ->
   truthy_string o.(url) = true ->
   truthy_string o.(format) = true ->
   (exists mn mx : Z,
      o.(minzoom) = Some mn /\ o.(maxzoom) = Some mx
      /\ exact_zoom_range mn mx) ->
   o.(identifier) = Some "" ->
   exists json : value,
     getCapabilities_json number_toString o = OK json
     /\ getCapabilities number_toString js2xml (Some o)
        = OK (js2xml json (Js2xml.mk true (or_number o.(spaces) SPACES))))
  /\ (truthy_string o.(title) = true ->
      truthy_string o.(url) = true ->
      truthy_string o.(format) = true ->
      o.(identifier) = None ->
      getCapabilities number_toString js2xml (Some o)
      = Throw "options.identifier is required")
  /\ (o.(title) = Some "" \/ o.(url) = Some "" \/ o.(format) = Some "" ->
      exists g : required_field,
        getCapabilities number_toString js2xml (Some o) = Throw (error_message g)
        /\ In g [field_url; field_title; field_format]).
Proof.
  split; [| split].
  - intros Ht Hu Hf [mn [mx [Hmn [Hmx Hzoom]]]] Hid.
    apply getCapabilities_accepts.
    + unfold first_rejected, check_order. cbn [find rejected].
      rewrite Hu, Ht, Hf, Hid, Hmn, Hmx. reflexivity.
    + intros mn' mx' Hmn' Hmx'.
      rewrite Hmn in Hmn'. rewrite Hmx in Hmx'.
      injection Hmn' as <-. injection Hmx' as <-.
      rewrite resolutions_exact by exact Hzoom. eexists. reflexivity.
  - intros Ht Hu Hf Hid.
    apply (getCapabilities_throws o field_identifier).
    unfold first_rejected, check_order. cbn [find rejected].
    rewrite Hu, Ht, Hf, Hid. reflexivity.
  - destruct o as [t u fmt id mn mx sp ab bb kw ac fe].
    cbn [title url format].
    intros H.
    destruct u as [[|? u]|]; destruct t as [[|? t]|]; destruct fmt as [[|? fmt]|];
      try (exfalso; destruct H as [H|[H|H]]; discriminate H);
      (eexists; split;
       [apply getCapabilities_throws; cbn; reflexivity | cbn; tauto]).
Qed.

End Validation.

(** C2, the counterexample: with an empty title and no format, the
    error names the title, an option that is given, and not the missing
    format. *)
Lemma getCapabilities_names_the_empty_title :
  undefined_field
    (mkOptions (Some "") (Some "http://localhost:80/WMTS") None (Some "osm")
       (Some 10) (Some 18) None None None None None None)
    field_format = true
  /\ undefined_field
       (mkOptions (Some "") (Some "http://localhost:80/WMTS") None (Some "osm")
          (Some 10) (Some 18) None None None None None None)
       field_title = false
  /\ getCapabilities (fun _ => "") (fun _ _ => "")
       (Some (mkOptions (Some "") (Some "http://localhost:80/WMTS") None
                (Some "osm") (Some 10) (Some 18) None None None None None None))
     = Throw "options.title is required"
  /\ mentions "options.title is required" (field_name field_format) = false.
Proof.
  split; [reflexivity |]. split; [reflexivity |].
  split; reflexivity.
Qed.

Lemma getCapabilities_missing_field_witness :
  undefined_field (with_format None test_options) field_format = true
  /\ exists g : required_field,
       first_rejected (with_format None test_options) = Some g
       /\ getCapabilities (fun _ => "") (fun _ _ => "")
            (Some (with_format None test_options))
          = Throw (error_message g)
       /\ g = field_format.
Proof.
  split; [reflexivity |].
  destruct (getCapabilities_missing_field (fun _ => "") (fun _ _ => "")
              (with_format None test_options) field_format eq_refl)
    as [g [H1 [H2 [_ [_ [_ H3]]]]]].
  exists g. split; [exact H1 |]. split; [exact H2 |].
  apply H3. intros h. destruct h; cbn; intros; try lia; reflexivity.
Defined.

(** C10, the counterexample: with the empty identifier, non-empty
    title, url and format and the defined zoom levels 0 and 4294967295,
    the range of zoom levels would have 2^32 entries and
    [getCapabilities] fails with the RangeError of [Array]. *)
Lemma getCapabilities_fails_on_2_32_zoom_levels :
  getCapabilities (fun _ => "") (fun _ _ => "")
    (Some (mkOptions (Some "Tile Service") (Some "http://localhost:80/WMTS")
             (Some "png") (Some "") (Some 0) (Some 4294967295)
             None None None None None None))
  = Throw "Invalid array length".
Proof. reflexivity. Qed.

Lemma getCapabilities_empty_strings_witness :
  (exists json : value,
     getCapabilities_json (fun _ => "")
       (mkOptions (Some "Tile Service") (Some "http://localhost:80/WMTS")
          (Some "png") (Some "") (Some 0) (Some 1)
          None None None None None None) = OK json)
  /\ (exists g : required_field,
        getCapabilities (fun _ => "") (fun _ _ => "")
          (Some (mkOptions (Some "") (Some "http://localhost:80/WMTS")
                   (Some "png") (Some "osm") (Some 0) (Some 1)
                   None None None None None None))
        = Throw (error_message g)).
Proof.
  assert (exact_zoom_range 0 1) as Hzoom by (unfold exact_zoom_range; lia).
  split.
  - destruct (proj1 (getCapabilities_empty_strings (fun _ => "") (fun _ _ => "")
        (mkOptions (Some "Tile Service") (Some "http://localhost:80/WMTS")
           (Some "png") (Some "") (Some 0) (Some 1)
           None None None None None None))
        eq_refl eq_refl eq_refl
        (ex_intro _ 0 (ex_intro _ 1 (conj eq_refl (conj eq_refl Hzoom))))
        eq_refl) as [json [H _]].
    exists json. exact H.
  - destruct (proj2 (proj2 (getCapabilities_empty_strings (fun _ => "") (fun _ _ => "")
        (mkOptions (Some "") (Some "http://localhost:80/WMTS")
           (Some "png") (Some "osm") (Some 0) (Some 1)
           None None None None None None)))
        (or_introl eq_refl)) as [g [H _]].
    exists g. exact H.
Defined.

(** ** The emitted document *)

Section Document.

Variable number_toString : Q -> string.
Variable js2xml : value -> Js2xml.t -> string.

(** No builder reads [options.bbox]. *)
Lemma getCapabilities_json_with_bbox (b : option BBox) (o : Options) :
  getCapabilities_json number_toString (with_bbox b o)
  = getCapabilities_json number_toString o.
Proof. destruct o. reflexivity. Qed.

(** C1, as amended: for every accepted options record and every value
    of [options.bbox] the document is the one for the record without
    that value; the [BoundingBox] of the [TileSet] carries the fixed
    meters constant; in the [Layer] and in its sub-[Layer] the
    [LatLonBoundingBox] carries the fixed degrees constant, and of the
    three [BoundingBox] elements those labelled EPSG:900913 and
    EPSG:3857 carry the meters constant and the one labelled EPSG:4326
    the degrees constant. *)
Theorem bounding_boxes_are_fixed (o : Options) (b : option BBox) (json : value) :
  getCapabilities_json number_toString (with_bbox b o) = OK json ->
  getCapabilities number_toString js2xml (Some (with_bbox b o))
  = getCapabilities number_toString js2xml (Some o)
  /\ getCapabilities_json number_toString o = OK json
  /\ select ["WMT_MS_Capabilities"; "Capability"; "VendorSpecificCapabilities";
             "TileSet"; "BoundingBox"] json
     = bounding_box_element (Some "EPSG:3857") BBOX_METERS
  /\ (forall layer : value,
        In layer [select ["WMT_MS_Capabilities"; "Capability"; "Layer"] json;
                  select ["WMT_MS_Capabilities"; "Capability"; "Layer"; "Layer"] json] ->
        get "LatLonBoundingBox" layer = bounding_box_element None BBOX
        /\ get "BoundingBox" layer
           = VArray [bounding_box_element (Some "EPSG:900913") BBOX_METERS;
                     bounding_box_element (Some "EPSG:4326") BBOX;
                     bounding_box_element (Some "EPSG:3857") BBOX_METERS]).
Proof.
  intros H. split; [| split].
  - unfold getCapabilities. rewrite getCapabilities_json_with_bbox.
    destruct o. reflexivity.
  - rewrite <- getCapabilities_json_with_bbox with (b := b). exact H.
  - accepted_tree H o.
    split; [reflexivity |].
    intros layer [<-|[<-|[]]]; split; reflexivity.
Qed.

(** The builders that emit the format and the identifier. *)
Lemma TileSet_format_and_layers (o : Options) (f : Format) (id : string) (v : value) :
  o.(format) = Some (Format_string f) ->
  o.(identifier) = Some id ->
  TileSet number_toString o = OK v ->
  select ["TileSet"; "Format"; "_text"] v
  = VString ("image/" ++ Format_string (normalized f))
  /\ select ["TileSet"; "Layers"; "_text"] v = VString id.
Proof.
  destruct o as [t u fmt i mn mx sp ab bb kw ac fe].
  cbn [format identifier]. intros -> -> H.
  unfold TileSet in H. cbn [format identifier minzoom maxzoom] in H.
  destruct mn as [mn|]; [| destruct f; discriminate H].
  destruct mx as [mx|]; [| destruct f; discriminate H].
  destruct f; cbn in H;
    (destruct (resolutions mn mx) as [l|e]; [| discriminate H]);
    cbn in H; injection H as <-; split; reflexivity.
Qed.

Lemma Request_GetMap_format (o : Options) (f : Format) (v : value) :
  o.(format) = Some (Format_string f) ->
  Request o = OK v ->
  select ["Request"; "GetMap"; "Format"; "_text"] v
  = VString ("image/" ++ Format_string (normalized f)).
Proof.
  destruct o as [t u fmt i mn mx sp ab bb kw ac fe].
  cbn [format]. intros -> H.
  unfold Request in H. cbn [format url] in H.
  destruct u as [[|c u]|]; [discriminate H | | discriminate H].
  destruct f; cbn in H; injection H as <-; reflexivity.
Qed.

Lemma Layer_sublayer_name (o : Options) (id : string) (v : value) :
  o.(identifier) = Some id ->
  Layer o = OK v ->
  select ["Layer"; "Layer"; "Name"; "_text"] v = VString id.
Proof.
  destruct o as [t u fmt i mn mx sp ab bb kw ac fe].
  cbn [identifier]. intros -> H.
  unfold Layer in H. cbn [identifier title url] in H.
  destruct t as [t|]; [| discriminate H].
  destruct u as [u|]; [| discriminate H].
  cbn in H. injection H as <-. reflexivity.
Qed.

(** The alias jpg is read as jpeg by every builder. *)
Lemma getCapabilities_json_normalized_format (o : Options) (f : Format) :
  o.(format) = Some (Format_string f) ->
  getCapabilities_json number_toString
    (with_format (Some (Format_string (normalized f))) o)
  = getCapabilities_json number_toString o.
Proof.
  destruct o as [t u fmt i mn mx sp ab bb kw ac fe].
  cbn [format]. intros ->. destruct f; reflexivity.
Qed.

(** C7: for a format among png, jpeg and jpg, the [Format] of the
    [TileSet] and the [Format] of the [GetMap] request are ["image/"]
    followed by the format, with jpeg in the place of jpg; the
    identifier is the text of the [Layers] of the [TileSet] and of the
    [Name] of the sub-[Layer] as it was given; and the document is the
    one obtained for the normalized format, so the alias shows nowhere
    but in the two MIME types. *)
Theorem format_alias_in_mime_types_only
  (o : Options) (f : Format) (id : string) (json : value) :
  o.(format) = Some (Format_string f) ->
  o.(identifier) = Some id ->
  getCapabilities_json number_toString o = OK json ->
  (forall v, TileSet number_toString o = OK v ->
     select ["TileSet"; "Format"; "_text"] v
     = VString ("image/" ++ Format_string (normalized f))
     /\ select ["TileSet"; "Layers"; "_text"] v = VString id)
  /\ (forall v, Request o = OK v ->
       select ["Request"; "GetMap"; "Format"; "_text"] v
       = VString ("image/" ++ Format_string (normalized f)))
  /\ (forall v, Layer o = OK v ->
       select ["Layer"; "Layer"; "Name"; "_text"] v = VString id)
  /\ select ["WMT_MS_Capabilities"; "Capability"; "VendorSpecificCapabilities";
             "TileSet"; "Format"; "_text"] json
     = VString ("image/" ++ Format_string (normalized f))
  /\ select ["WMT_MS_Capabilities"; "Capability"; "Request"; "GetMap";
             "Format"; "_text"] json
     = VString ("image/" ++ Format_string (normalized f))
  /\ select ["WMT_MS_Capabilities"; "Capability"; "VendorSpecificCapabilities";
             "TileSet"; "Layers"; "_text"] json
     = VString id
  /\ select ["WMT_MS_Capabilities"; "Capability"; "Layer"; "Layer"; "Name";
             "_text"] json
     = VString id
  /\ getCapabilities_json number_toString
       (with_format (Some (Format_string (normalized f))) o) = OK json.
Proof.
  intros Hf Hid H.
  split; [intros v; apply TileSet_format_and_layers; assumption |].
  split; [intros v; apply Request_GetMap_format; assumption |].
  split; [intros v; apply Layer_sublayer_name; assumption |].
  assert (getCapabilities_json number_toString
            (with_format (Some (Format_string (normalized f))) o) = OK json)
    as Hnormalized
    by (rewrite getCapabilities_json_normalized_format by exact Hf; exact H).
  accepted_tree H o.
  injection Hid as ->.
  destruct f; injection Hf as -> ->;
    (split; [reflexivity |]); (split; [reflexivity |]);
    (split; [reflexivity |]); (split; [reflexivity |]); exact Hnormalized.
Qed.

(** C4, on the input [spaces: 0]: the serializer is called with the
    indentation 2, as it is when [spaces] is 2 or is not given, by
    [getCapabilities] and by [exception] alike. *)
Theorem spaces_zero_is_serialized_with_two (o : Options) (message : option string) :
  getCapabilities number_toString js2xml (Some (with_spaces (Some 0) o))
  = getCapabilities number_toString js2xml (Some (with_spaces (Some 2) o))
  /\ getCapabilities number_toString js2xml (Some (with_spaces (Some 0) o))
     = getCapabilities number_toString js2xml (Some (with_spaces None o))
  /\ (exists json : value,
        getCapabilities number_toString js2xml
          (Some (with_spaces (Some 0) test_options))
        = OK (js2xml json (Js2xml.mk true 2)))
  /\ exception js2xml message (Some (ExceptionOptions.mk (Some 0)))
     = js2xml (exception_json message) (Js2xml.mk true 2).
Proof.
  repeat split.
  eexists. reflexivity.
Qed.

(** For an accepted options record the serializer is called in compact
    mode, with the supplied [spaces] unless it is 0, and with 2 when
    [spaces] is 0 or not given. *)
Theorem getCapabilities_indentation (o : Options) (json : value) :
  getCapabilities_json number_toString o = OK json ->
  getCapabilities number_toString js2xml (Some o)
  = OK (js2xml json
          (Js2xml.mk true
             match o.(spaces) with
             | Some n => if n =? 0 then 2 else n
             | None => 2
             end)).
Proof.
  intros H. unfold getCapabilities. rewrite H.
  destruct (spaces o) as [[|p|p]|]; reflexivity.
Qed.

(** The document of an accepted options record: the XML declaration,
    then the root [WMT_MS_Capabilities] with the attribute [version]
    1.1.0 and the children [Service] and [Capability], in this order. *)
Theorem getCapabilities_root (o : Options) (json : value) :
  getCapabilities_json number_toString o = OK json ->
  exists service capability : value,
    json = VObject [
      ("_declaration",
        VObject [("_attributes", VObject [
          ("version", VString "1.0");
          ("encoding", VString "utf-8")])]);
      ("WMT_MS_Capabilities", VObject [
        ("_attributes", VObject [("version", VString "1.1.0")]);
        ("Service", service);
        ("Capability", capability)])].
Proof.
  intros H. accepted_tree H o. eexists. eexists. reflexivity.
Qed.

End Document.

(** Without an abstract, [Service] still emits the [Abstract] element,
    with no text: [clean] removes the undefined [_text], not the element
    that holds it.  Without keywords there is no [KeywordList]. *)
Theorem Service_without_abstract_or_keywords (o : Options) (v : value) :
  Service o = OK v ->
  (o.(abstract) = None -> select ["Service"; "Abstract"] v = VObject [])
  /\ (o.(keywords) = None ->
      select ["Service"; "KeywordList"] v = VUndefined
      /\ exists title href fees constraints : value,
           get "Service" v = VObject [
             ("Name", text "OGC:WMS");
             ("Title", title);
             ("Abstract", get "Abstract" (get "Service" v));
             ("OnlineResource", href);
             ("Fees", fees);
             ("AccessConstraints", constraints)]).
Proof.
  destruct o as [t u fmt i mn mx sp ab bb kw ac fe].
  unfold Service. cbn [title url abstract keywords accessConstraints fees].
  destruct t as [[|c t]|]; [discriminate | | discriminate].
  destruct u as [[|d u]|]; [discriminate | | discriminate].
  cbn. intros [= <-]. split.
  - intros ->. reflexivity.
  - intros ->. split; [destruct ab; reflexivity |].
    destruct ab; cbn; repeat eexists.
Qed.

Lemma Service_without_abstract_or_keywords_witness :
  exists v : value,
    Service (mkOptions (Some "Tile Service") (Some "http://localhost:80/WMTS")
               None None None None None None None None None None) = OK v
    /\ select ["Service"; "Abstract"] v = VObject []
    /\ select ["Service"; "KeywordList"] v = VUndefined.
Proof.
  eexists. split; [reflexivity |].
  split.
  - apply (Service_without_abstract_or_keywords
             (mkOptions (Some "Tile Service") (Some "http://localhost:80/WMTS")
                None None None None None None None None None None) _ eq_refl).
    reflexivity.
  - apply (Service_without_abstract_or_keywords
             (mkOptions (Some "Tile Service") (Some "http://localhost:80/WMTS")
                None None None None None None None None None None) _ eq_refl).
    reflexivity.
Defined.

(** The failures of single builders the spec lists: [Service] without a
    title, [TileSet] without any option. *)
Theorem builders_reject_missing_options (number_toString : Q -> string) :
  Service (mkOptions None (Some "x") None None None None None None None None
             None None)
  = Throw "options.title is required"
  /\ TileSet number_toString no_options = Throw "options.format is required".
Proof. split; reflexivity. Qed.

Lemma getCapabilities_indentation_witness :
  exists json : value,
    getCapabilities_json (fun _ => "") test_options = OK json
    /\ getCapabilities (fun _ => "") (fun _ _ => "") (Some test_options)
       = OK ((fun _ _ => "") json (Js2xml.mk true 2)).
Proof.
  destruct (test_options_accepted (fun _ => "") (fun _ _ => ""))
    as [json [H _]].
  exists json. split; [exact H |].
  apply (getCapabilities_indentation (fun _ => "") (fun _ _ => "")
           test_options json H).
Defined.

Lemma getCapabilities_root_witness :
  exists json service capability : value,
    getCapabilities_json (fun _ => "") test_options = OK json
    /\ json = VObject [
         ("_declaration",
           VObject [("_attributes", VObject [
             ("version", VString "1.0");
             ("encoding", VString "utf-8")])]);
         ("WMT_MS_Capabilities", VObject [
           ("_attributes", VObject [("version", VString "1.1.0")]);
           ("Service", service);
           ("Capability", capability)])].
Proof.
  destruct (test_options_accepted (fun _ => "") (fun _ _ => ""))
    as [json [H _]].
  destruct (getCapabilities_root (fun _ => "") test_options json H)
    as [service [capability E]].
  exists json, service, capability. split; [exact H | exact E].
Defined.

(** C1, the counterexample: the options of the test suite are accepted,
    and the second [BoundingBox] of the [Layer] carries the degrees
    constant, so its [minx] is -180 and not -20037508.3428. *)
Lemma layer_epsg4326_box_in_degrees :
  first_rejected test_options = None
  /\ exists layer : value,
       Layer test_options = OK layer
       /\ item 1 (select ["Layer"; "BoundingBox"] layer)
          = bounding_box_element (Some "EPSG:4326") BBOX
       /\ select ["_attributes"; "minx"]
            (item 1 (select ["Layer"; "BoundingBox"] layer))
          = VNumber (-180 # 1)
       /\ VNumber (-180 # 1) <> VNumber (-200375083428 # 10000).
Proof.
  split; [reflexivity |].
  eexists. split; [reflexivity |].
  split; [reflexivity |]. split; [reflexivity | discriminate].
Qed.

Lemma bounding_boxes_are_fixed_witness :
  exists json : value,
    getCapabilities_json (fun _ => "")
      (with_bbox (Some (0, 0, 1, 1)%Q) test_options) = OK json
    /\ select ["WMT_MS_Capabilities"; "Capability"; "VendorSpecificCapabilities";
               "TileSet"; "BoundingBox"] json
       = bounding_box_element (Some "EPSG:3857") BBOX_METERS.
Proof.
  destruct (test_options_accepted (fun _ => "") (fun _ _ => ""))
    as [json [H _]].
  exists json. split; [exact H |].
  apply (bounding_boxes_are_fixed (fun _ => "") (fun _ _ => "")
           test_options (Some (0, 0, 1, 1)%Q) json H).
Defined.

Lemma format_alias_in_mime_types_only_witness :
  exists json : value,
    getCapabilities_json (fun _ => "") test_options = OK json
    /\ select ["WMT_MS_Capabilities"; "Capability"; "VendorSpecificCapabilities";
               "TileSet"; "Format"; "_text"] json
       = VString "image/jpeg"
    /\ select ["WMT_MS_Capabilities"; "Capability"; "Layer"; "Layer"; "Name";
               "_text"] json
       = VString "osm".
Proof.
  destruct (test_options_accepted (fun _ => "") (fun _ _ => ""))
    as [json [H _]].
  exists json. split; [exact H |].
  destruct (format_alias_in_mime_types_only (fun _ => "") test_options jpg
              "osm" json eq_refl eq_refl H)
    as [_ [_ [_ [Hformat [_ [_ [Hname _]]]]]]].
  split; [exact Hformat | exact Hname].
Defined.

(** * Further properties of the builders and utilities *)

(** ** Vocabulary *)

(** The value holds [undefined] nowhere: it is not [undefined], and
    neither is a property or an array entry at any depth. *)
Fixpoint defined_everywhere (v : value) : bool :=
  match v with
  | VUndefined => false
  | VArray items => forallb defined_everywhere items
  | VObject props => forallb (fun kv => defined_everywhere (snd kv)) props
  | _ => true
  end.

(** No string occurs twice. *)
Fixpoint distinct (keys : list string) : bool :=
  match keys with
  | [] => true
  | k :: rest => negb (existsb (String.eqb k) rest) && distinct rest
  end.

(** Every object of the value has each key once, as an object of
    JavaScript has. *)
Fixpoint unique_keys (v : value) : bool :=
  match v with
  | VArray items => forallb unique_keys items
  | VObject props =>
      distinct (map fst props)
      && forallb (fun kv => unique_keys (snd kv)) props
  | _ => true
  end.

(** ** Induction on values *)

Section ValueInduction.

Variable P : value -> Prop.
Hypothesis P_undefined : P VUndefined.
Hypothesis P_null : P VNull.
Hypothesis P_number : forall n, P (VNumber n).
Hypothesis P_string : forall s, P (VString s).
Hypothesis P_array : forall items, Forall P items -> P (VArray items).
Hypothesis P_object :
  forall props, Forall (fun kv => P (snd kv)) props -> P (VObject props).

Fixpoint value_induction (v : value) : P v :=
  match v with
  | VUndefined => P_undefined
  | VNull => P_null
  | VNumber n => P_number n
  | VString s => P_string s
  | VArray items =>
      P_array items
        ((fix all (l : list value) : Forall P l :=
            match l with
            | [] => Forall_nil P
            | x :: rest => Forall_cons x (value_induction x) (all rest)
            end) items)
  | VObject props =>
      P_object props
        ((fix all (l : list (string * value))
            : Forall (fun kv => P (snd kv)) l :=
            match l with
            | [] => Forall_nil _
            | kv :: rest =>
                Forall_cons kv (value_induction (snd kv)) (all rest)
            end) props)
  end.

End ValueInduction.

(** ** [clean] *)

(** The properties the round trip keeps. *)
Definition kept_props (props : list (string * value)) : list (string * value) :=
  map (fun kv => (fst kv, json_roundtrip (snd kv)))
    (filter (fun kv => match snd kv with VUndefined => false | _ => true end) props).

Lemma json_roundtrip_object (props : list (string * value)) :
  json_roundtrip (VObject props) = VObject (kept_props props).
Proof.
  unfold kept_props. cbn [json_roundtrip]. f_equal.
  induction props as [|[k x] rest IH]; [reflexivity |].
  destruct x; cbn [filter map fst snd]; rewrite <- IH; reflexivity.
Qed.

Lemma json_roundtrip_defined (v : value) :
  v <> VUndefined -> defined_everywhere (json_roundtrip v) = true.
Proof.
  induction v as [| | n | s | items IH | props IH] using value_induction;
    intros Hv; try reflexivity.
  - contradiction Hv. reflexivity.
  - clear Hv. cbn [json_roundtrip defined_everywhere].
    induction IH as [|x rest Hx _ IHrest]; [reflexivity |].
    cbn [map forallb]. rewrite IHrest, andb_true_r.
    destruct x; try reflexivity; apply Hx; discriminate.
  - clear Hv. rewrite json_roundtrip_object. unfold kept_props.
    cbn [defined_everywhere].
    induction IH as [|[k x] rest Hx _ IHrest]; [reflexivity |].
    cbn [filter snd]. cbn [snd] in Hx.
    destruct x; cbn [map forallb fst snd]; try exact IHrest;
      rewrite IHrest, andb_true_r; try reflexivity; apply Hx; discriminate.
Qed.

Lemma json_roundtrip_fixes_defined (v : value) :
  defined_everywhere v = true -> json_roundtrip v = v.
Proof.
  induction v as [| | n | s | items IH | props IH] using value_induction;
    intros Hv; try reflexivity.
  - cbn [json_roundtrip]. f_equal. cbn [defined_everywhere] in Hv.
    induction IH as [|x rest Hx _ IHrest]; [reflexivity |].
    cbn [forallb] in Hv. apply andb_true_iff in Hv. destruct Hv as [H1 H2].
    cbn [map]. rewrite (IHrest H2). f_equal.
    rewrite (Hx H1). destruct x; try reflexivity. discriminate H1.
  - rewrite json_roundtrip_object. f_equal. unfold kept_props.
    cbn [defined_everywhere] in Hv.
    induction IH as [|[k x] rest Hx _ IHrest]; [reflexivity |].
    cbn [forallb snd] in Hv. apply andb_true_iff in Hv. destruct Hv as [H1 H2].
    cbn [snd] in Hx. cbn [filter snd].
    destruct x; try discriminate H1;
      cbn [map fst snd]; rewrite (IHrest H2); rewrite ?(Hx H1); reflexivity.
Qed.

(** [clean] removes every [undefined]: its result holds none, and
    cleaning the result again changes nothing. *)
Theorem clean_result_is_defined_everywhere (obj v : value) :
  clean obj = OK v ->
  defined_everywhere v = true /\ clean v = OK v.
Proof.
  intros H.
  assert (Hobj : obj <> VUndefined) by (intros ->; discriminate H).
  assert (E : v = json_roundtrip obj)
    by (destruct obj; try (injection H as <-; reflexivity); discriminate H).
  subst v.
  pose proof (json_roundtrip_defined obj Hobj) as D.
  split; [exact D |].
  unfold clean. rewrite (json_roundtrip_fixes_defined _ D).
  destruct (json_roundtrip obj); try reflexivity. discriminate D.
Qed.

Lemma clean_result_is_defined_everywhere_witness :
  defined_everywhere
    (VObject [("foo", VArray [VNumber 10; VNull]); ("baz", VObject [])]) = true
  /\ clean (VObject [("foo", VArray [VNumber 10; VNull]); ("baz", VObject [])])
     = OK (VObject [("foo", VArray [VNumber 10; VNull]); ("baz", VObject [])]).
Proof.
  apply (clean_result_is_defined_everywhere
           (VObject [("foo", VArray [VNumber 10; VUndefined]);
                     ("bar", VUndefined);
                     ("baz", VObject [("qux", VUndefined)])])
           (VObject [("foo", VArray [VNumber 10; VNull]); ("baz", VObject [])])).
  reflexivity.
Defined.

(** [clean] returns its argument unchanged exactly when the argument
    holds no [undefined]; so it keeps 0, the empty string, [null], empty
    arrays and empty objects. *)
Theorem clean_identity_iff (v : value) :
  clean v = OK v <-> defined_everywhere v = true.
Proof.
  split.
  - intros H.
    assert (Hv : v <> VUndefined) by (intros ->; discriminate H).
    assert (E : json_roundtrip v = v)
      by (destruct v; try reflexivity; unfold clean in H; congruence).
    rewrite <- E. apply json_roundtrip_defined. exact Hv.
  - intros D. unfold clean. rewrite (json_roundtrip_fixes_defined v D).
    destruct v; try reflexivity. discriminate D.
Qed.

Lemma lookup_kept_props_absent (key : string) (props : list (string * value)) :
  existsb (String.eqb key) (map fst props) = false ->
  lookup key (kept_props props) = VUndefined.
Proof.
  unfold kept_props.
  induction props as [|[k x] rest IH]; [reflexivity |].
  cbn [map fst existsb]. intros H. apply orb_false_iff in H.
  destruct H as [Hk Hrest]. cbn [filter snd].
  rewrite String.eqb_sym in Hk.
  destruct x; cbn [map lookup fst snd]; rewrite ?Hk; exact (IH Hrest).
Qed.

(** Reading a property commutes with [clean]: on an object (each key
    once) the property [key] of the cleaned object is the cleaned
    property [key] of the object, and is [undefined] when the object has
    no such property or holds [undefined] there. *)
Theorem clean_commutes_with_get (key : string) (props : list (string * value)) :
  distinct (map fst props) = true ->
  exists cleaned : value,
    clean (VObject props) = OK cleaned
    /\ get key cleaned = json_roundtrip (get key (VObject props)).
Proof.
  intros H. exists (json_roundtrip (VObject props)).
  split; [reflexivity |].
  rewrite json_roundtrip_object. cbn [get].
  induction props as [|[k x] rest IH]; [reflexivity |].
  cbn [map fst distinct] in H. apply andb_true_iff in H.
  destruct H as [Hk Hrest]. apply negb_true_iff in Hk.
  cbn [lookup]. destruct (String.eqb_spec k key) as [->|Hne].
  - destruct x; unfold kept_props; cbn [filter map lookup fst snd];
      rewrite ?String.eqb_refl; try reflexivity.
    apply (lookup_kept_props_absent key rest Hk).
  - rewrite <- (IH Hrest).
    apply String.eqb_neq in Hne.
    destruct x; unfold kept_props; cbn [filter map lookup fst snd];
      rewrite ?Hne; reflexivity.
Qed.

Lemma clean_commutes_with_get_witness :
  exists cleaned : value,
    clean (VObject [("foo", VNumber 0); ("bar", VUndefined)]) = OK cleaned
    /\ get "bar" cleaned
       = json_roundtrip (get "bar" (VObject [("foo", VNumber 0); ("bar", VUndefined)])).
Proof.
  apply (clean_commutes_with_get "bar" [("foo", VNumber 0); ("bar", VUndefined)]).
  reflexivity.
Defined.

(** ** [range] *)

Lemma progression_In (n : nat) (start step x : Z) :
  In x (progression n start step)
  <-> exists i : nat, (i < n)%nat /\ x = start + Z.of_nat i * step.
Proof.
  revert start. induction n as [|n IH]; intros start; cbn [progression In].
  - split; [intros [] | intros [i [Hi _]]; lia].
  - rewrite IH. split.
    + intros [<-|[i [Hi ->]]].
      * exists O. split; [lia | cbn; ring].
      * exists (S i). split; [lia | rewrite Nat2Z.inj_succ; ring].
    + intros [[|i] [Hi ->]].
      * left. cbn. ring.
      * right. exists i. split; [lia | rewrite Nat2Z.inj_succ; ring].
Qed.

(** With a given [stop] and a [step] other than 0, where [start],
    [stop], [step] and the difference [stop - start] are held exactly by
    a double: [range] throws the RangeError of [Array] when the
    progression from [start] has 2^32 members or more before [stop];
    otherwise it returns that progression: entry [i] is
    [start + i * step], and the entries are exactly the members of the
    progression before [stop] (below it for a positive step, above it
    for a negative one).  A step that leads away from [stop] gives the
    empty array. *)
Theorem range_is_the_progression_before_stop (start stop step : Z) :
  step <> 0 ->
  Z.abs start <= 2 ^ 53 ->
  Z.abs stop <= 2 ^ 53 ->
  Z.abs step <= 2 ^ 53 ->
  Z.abs (stop - start) < 2 ^ 53 ->
  (2 ^ 32 <= ceil_quotient (stop - start) step ->
   range (Finite start) (Some (Finite stop)) (Some (Finite step))
   = Throw "Invalid array length")
  /\ (ceil_quotient (stop - start) step < 2 ^ 32 ->
      exists l : list Z,
        range (Finite start) (Some (Finite stop)) (Some (Finite step))
        = OK (map Finite l)
        /\ (forall i : nat,
              (i < length l)%nat -> nth i l 0 = start + Z.of_nat i * step)
        /\ (forall x : Z,
              In x l
              <-> exists i : nat,
                    x = start + Z.of_nat i * step
                    /\ (if 0 <? step then x < stop else stop < x))
        /\ (l = [] <-> (if 0 <? step then stop <= start else start <= stop))).
Proof.
  intros Hstep Hs Ht _ Hd.
  rewrite (range_with_step start stop step Hstep Hs Ht Hd).
  set (c := ceil_quotient (stop - start) step).
  split.
  - intros Hc. destruct (Z.ltb_spec c (2 ^ 32)); [lia | reflexivity].
  - intros Hc. destruct (Z.ltb_spec c (2 ^ 32)); [| lia].
    exists (progression (Z.to_nat c) start step).
    split; [reflexivity |]. split; [| split].
    + intros i Hi. rewrite progression_length in Hi.
      apply progression_nth. exact Hi.
    + intros x. rewrite progression_In.
      destruct (Z.ltb_spec 0 step) as [Hpos|Hneg].
      * split; intros [i [H1 H2]]; exists i.
        -- split; [exact H2 |]. subst x.
           assert (Z.of_nat i < c) as Hi by lia.
           apply ceil_quotient_positive_step in Hi; lia.
        -- split; [| exact H1]. subst x.
           assert (Z.of_nat i < c) as Hi
             by (apply ceil_quotient_positive_step; lia).
           lia.
      * assert (step < 0) as Hlt by lia.
        split; intros [i [H1 H2]]; exists i.
        -- split; [exact H2 |]. subst x.
           assert (Z.of_nat i < c) as Hi by lia.
           apply ceil_quotient_negative_step in Hi; lia.
        -- split; [| exact H1]. subst x.
           assert (Z.of_nat i < c) as Hi
             by (apply ceil_quotient_negative_step; lia).
           lia.
    + assert (L : forall n, progression n start step = [] <-> n = O).
      { intros [|n]; cbn; split; intros E; try reflexivity; discriminate E. }
      rewrite L.
      destruct (Z.ltb_spec 0 step) as [Hpos|Hneg].
      * pose proof (ceil_quotient_positive_step (stop - start) step 0 Hpos).
        fold c in H0. lia.
      * pose proof (ceil_quotient_negative_step (stop - start) step 0
                      ltac:(lia)).
        fold c in H0. lia.
Qed.

Lemma range_is_the_progression_before_stop_witness :
  -1 <> 0
  /\ ceil_quotient (3 - 6) (-1) < 2 ^ 32
  /\ exists l : list Z,
       range (Finite 6) (Some (Finite 3)) (Some (Finite (-1)))
       = OK (map Finite l)
       /\ (l = [] <-> 6 <= 3).
Proof.
  assert (ceil_quotient (3 - 6) (-1) < 2 ^ 32) as Hc by reflexivity.
  split; [lia |]. split; [exact Hc |].
  destruct (range_is_the_progression_before_stop 6 3 (-1))
    as [_ H]; try lia.
  destruct (H Hc) as [l [H1 [_ [_ H2]]]].
  exists l. split; [exact H1 | exact H2].
Defined.

(** Above 2^53 the loop of [range] rounds: the second entry of
    [range(2^53, 2^53 + 2)] is 2^53 again. *)
Lemma range_rounds_above_2_53 :
  range (Finite (2 ^ 53)) (Some (Finite (2 ^ 53 + 2))) None
  = OK [Finite (2 ^ 53); Finite (2 ^ 53)].
Proof. reflexivity. Qed.

(** The defaults of [range]: a step of 0 counts as a step left out,
    which is 1, or -1 when [stop < start]; a single argument is the
    stop of a range that starts at 0, so [range n] counts 0, 1, ...,
    [n - 1] for [0 <= n < 2^32] and 0, -1, ..., [n + 1] for
    [- 2^32 < n < 0]; from 2^32 on in absolute value (and below 2^53)
    it throws the RangeError of [Array]. *)
Theorem range_defaults (n start stop : Z) :
  range (Finite start) (Some (Finite stop)) (Some (Finite 0))
  = range (Finite start) (Some (Finite stop)) None
  /\ range (Finite start) (Some (Finite stop)) None
     = range (Finite start) (Some (Finite stop))
         (Some (Finite (if stop <? start then -1 else 1)))
  /\ range (Finite n) None None = range (Finite 0) (Some (Finite n)) None
  /\ (Z.abs n < 2 ^ 32 ->
      exists l : list Z,
        range (Finite n) None None = OK (map Finite l)
        /\ length l = Z.abs_nat n
        /\ (forall i : nat,
              (i < Z.abs_nat n)%nat ->
              nth i l 0 = if n <? 0 then - Z.of_nat i else Z.of_nat i))
  /\ (2 ^ 32 <= Z.abs n < 2 ^ 53 ->
      range (Finite n) None None = Throw "Invalid array length").
Proof.
  assert (E : range (Finite n) None None
              = range (Finite 0) (Some (Finite n)) None)
    by (destruct n; reflexivity).
  split; [reflexivity |].
  split; [apply range_default_step |].
  split; [exact E |].
  rewrite E. split.
  - intros Hn. destruct (Z.ltb_spec n 0) as [Hneg|Hpos].
    + rewrite range_down by lia. eexists. split; [reflexivity |]. split.
      * rewrite progression_length. lia.
      * intros i Hi. rewrite progression_nth by lia. ring.
    + rewrite range_up by lia. eexists. split; [reflexivity |]. split.
      * rewrite progression_length. lia.
      * intros i Hi. rewrite progression_nth by lia. ring.
  - intros Hn. rewrite range_default_step.
    rewrite range_with_step by (try destruct (n <? 0); lia).
    rewrite Z.sub_0_r.
    destruct (Z.ltb_spec n 0) as [Hneg|Hpos].
    + rewrite ceil_quotient_by_minus_1.
      destruct (Z.ltb_spec (- n) (2 ^ 32)); [lia | reflexivity].
    + rewrite ceil_quotient_by_1.
      destruct (Z.ltb_spec n (2 ^ 32)); [lia | reflexivity].
Qed.

(** ** [resolutions] *)

(** With both zoom levels, [maxzoom + 1] and the difference of the two
    held exactly by a double, [resolutions] returns exactly when fewer
    than 2^32 zoom levels lie between [minzoom] and [maxzoom + 1], and
    then with the resolutions of these zoom levels; otherwise it throws
    the RangeError of [Array], which is its only error. *)
Theorem resolutions_returns_iff (minzoom maxzoom : Z) :
  - 2 ^ 53 <= minzoom <= 2 ^ 53 ->
  - 2 ^ 53 <= maxzoom < 2 ^ 53 ->
  Z.abs (maxzoom + 1 - minzoom) < 2 ^ 53 ->
  ((exists l : list Q, resolutions minzoom maxzoom = OK l)
   <-> Z.abs (maxzoom + 1 - minzoom) < 2 ^ 32)
  /\ (Z.abs (maxzoom + 1 - minzoom) < 2 ^ 32 ->
      resolutions minzoom maxzoom
      = OK (map resolution (zoom_levels minzoom maxzoom)))
  /\ (2 ^ 32 <= Z.abs (maxzoom + 1 - minzoom) ->
      resolutions minzoom maxzoom = Throw "Invalid array length")
  /\ (forall message : string,
        resolutions minzoom maxzoom = Throw message ->
        message = "Invalid array length").
Proof.
  intros Hmin Hmax Hd.
  assert (Hok : Z.abs (maxzoom + 1 - minzoom) < 2 ^ 32 ->
                resolutions minzoom maxzoom
                = OK (map resolution (zoom_levels minzoom maxzoom))).
  { intros H. apply resolutions_exact. unfold exact_zoom_range. lia. }
  assert (Hthrow : 2 ^ 32 <= Z.abs (maxzoom + 1 - minzoom) ->
                   resolutions minzoom maxzoom = Throw "Invalid array length").
  { intros H. apply resolutions_range_error; lia. }
  split; [| split; [exact Hok | split; [exact Hthrow |]]].
  - split.
    + intros [l Hl].
      destruct (Z.lt_ge_cases (Z.abs (maxzoom + 1 - minzoom)) (2 ^ 32))
        as [H|H]; [exact H |].
      rewrite (Hthrow H) in Hl. discriminate Hl.
    + intros H. eexists. apply Hok. exact H.
  - apply resolutions_error.
Qed.

Lemma resolutions_returns_iff_witness :
  resolutions 0 4294967295 = Throw "Invalid array length"
  /\ resolutions 0 4294967294
     = OK (map resolution (zoom_levels 0 4294967294)).
Proof.
  split.
  - destruct (resolutions_returns_iff 0 4294967295) as [_ [_ [H _]]];
      try lia.
    apply H. lia.
  - destruct (resolutions_returns_iff 0 4294967294) as [_ [H _]];
      try lia.
    apply H. lia.
Defined.

(** ** The checks of the builders *)

(** [BoundingBox] fails exactly when [bbox] is missing.  Otherwise it
    returns an element with attributes only: [SRS] when a label is
    given (an empty label included), then [minx], [miny], [maxx] and
    [maxy] with the west, south, east and north of the box; without a
    label there is no [SRS] attribute. *)
Theorem BoundingBox_element (bbox : option BBox) (srs : option string) :
  BoundingBox bbox srs
  = match bbox with
    | Some b => OK (bounding_box_element srs b)
    | None => Throw "bbox is required"
    end.
Proof.
  destruct bbox as [[[[west south] east] north]|]; [| reflexivity].
  destruct srs; reflexivity.
Qed.

(** [Service] checks [title], then [url], both for truthiness, and
    succeeds when both are non-empty strings. *)
Theorem Service_checks (o : Options) :
  (truthy_string o.(title) = false ->
   Service o = Throw "options.title is required")
  /\ (truthy_string o.(title) = true ->
      truthy_string o.(url) = false ->
      Service o = Throw "options.url is required")
  /\ (truthy_string o.(title) = true ->
      truthy_string o.(url) = true ->
      exists v : value, Service o = OK v).
Proof.
  destruct o as [t u fmt i mn mx sp ab bb kw ac fe].
  unfold Service. cbn [title url].
  destruct t as [[|c t]|]; destruct u as [[|d u]|]; cbn;
    repeat split; intros; try discriminate; try reflexivity;
    eexists; reflexivity.
Qed.

(** [Request] checks [url], then [format], both for truthiness; the
    check of [DCPType] on the same [url] cannot fail after them.
    [DCPType] alone fails exactly on a missing or empty [url]. *)
Theorem Request_checks (o : Options) :
  (truthy_string o.(url) = false ->
   Request o = Throw "options.url is required")
  /\ (truthy_string o.(url) = true ->
      truthy_string o.(format) = false ->
      Request o = Throw "options.format is required")
  /\ (truthy_string o.(url) = true ->
      truthy_string o.(format) = true ->
      exists v : value, Request o = OK v)
  /\ (truthy_string o.(url) = false ->
      DCPType o.(url) = Throw "url is required")
  /\ (truthy_string o.(url) = true ->
      exists v : value, DCPType o.(url) = OK v).
Proof.
  destruct o as [t u fmt i mn mx sp ab bb kw ac fe].
  unfold Request, DCPType. cbn [url format].
  destruct u as [[|d u]|]; destruct fmt as [[|c fmt]|]; cbn;
    repeat split; intros; try discriminate; try reflexivity;
    eexists; reflexivity.
Qed.

(** [Layer] checks [identifier], [title] and [url], in this order, for
    being defined only: it accepts the empty string for each of them,
    which [Service] and [Request] reject for [title] and [url]. *)
Theorem Layer_checks (o : Options) :
  (o.(identifier) = None -> Layer o = Throw "identifier is required")
  /\ (o.(identifier) <> None -> o.(title) = None ->
      Layer o = Throw "title is required")
  /\ (o.(identifier) <> None -> o.(title) <> None -> o.(url) = None ->
      Layer o = Throw "url is required")
  /\ (o.(identifier) <> None -> o.(title) <> None -> o.(url) <> None ->
      exists v : value, Layer o = OK v).
Proof.
  destruct o as [t u fmt i mn mx sp ab bb kw ac fe].
  unfold Layer. cbn [identifier title url].
  destruct i as [i|]; destruct t as [t|]; destruct u as [u|]; cbn;
    repeat split; intros; try discriminate; try reflexivity;
    try contradiction; try (eexists; reflexivity).
Qed.

Section BuildersWithRendering.

Variable number_toString : Q -> string.
Variable js2xml : value -> Js2xml.t -> string.

(** [TileSet] checks [format] for truthiness, then [identifier],
    [minzoom] and [maxzoom] for being defined, in this order, and then
    hands the zoom levels to [resolutions]: it fails with the RangeError
    of [resolutions] when that fails and returns when that returns,
    which it does on every exact zoom range, also with
    [maxzoom < minzoom] and with 0. *)
Theorem TileSet_checks (o : Options) :
  (truthy_string o.(format) = false ->
   TileSet number_toString o = Throw "options.format is required")
  /\ (truthy_string o.(format) = true -> o.(identifier) = None ->
      TileSet number_toString o = Throw "options.identifier is required")
  /\ (truthy_string o.(format) = true -> o.(identifier) <> None ->
      o.(minzoom) = None ->
      TileSet number_toString o = Throw "options.minzoom is required")
  /\ (truthy_string o.(format) = true -> o.(identifier) <> None ->
      o.(minzoom) <> None -> o.(maxzoom) = None ->
      TileSet number_toString o = Throw "options.maxzoom is required")
  /\ (forall mn mx : Z,
        truthy_string o.(format) = true -> o.(identifier) <> None ->
        o.(minzoom) = Some mn -> o.(maxzoom) = Some mx ->
        (forall message : string,
           resolutions mn mx = Throw message ->
           TileSet number_toString o = Throw message
           /\ message = "Invalid array length")
        /\ (forall l : list Q,
              resolutions mn mx = OK l ->
              exists v : value, TileSet number_toString o = OK v)
        /\ (exact_zoom_range mn mx ->
            exists v : value, TileSet number_toString o = OK v)).
Proof.
  destruct o as [t u fmt i mn mx sp ab bb kw ac fe].
  unfold TileSet. cbn [format identifier minzoom maxzoom].
  split; [| split; [| split; [| split]]].
  - destruct fmt as [[|c fmt]|]; cbn; intros; try discriminate; reflexivity.
  - destruct fmt as [[|c fmt]|]; cbn; intros H ->; try discriminate H;
      reflexivity.
  - destruct fmt as [[|c fmt]|]; destruct i as [i|]; cbn; intros H Hi ->;
      try discriminate H; try contradiction; reflexivity.
  - destruct fmt as [[|c fmt]|]; destruct i as [i|]; destruct mn as [mn|];
      cbn; intros H Hi Hmn ->;
      try discriminate H; try contradiction; reflexivity.
  - intros mn' mx'.
    destruct fmt as [[|c fmt]|]; cbn [truthy_string]; intros H;
      try discriminate H.
    destruct i as [i|]; intros Hi; [| contradiction].
    intros -> ->. cbn.
    assert (Hok : forall l : list Q,
              resolutions mn' mx' = OK l ->
              exists v : value,
                (zoomResolutions <- resolutions mn' mx' ;;
                 OK (VObject [("TileSet", VObject [
                   ("SRS", text "EPSG:3857");
                   ("BoundingBox",
                     bounding_box_element (Some "EPSG:3857") BBOX_METERS);
                   ("Resolutions",
                     text (join " " (map number_toString zoomResolutions)));
                   ("Width", text "256");
                   ("Height", text "256");
                   ("Format", text ("image/" ++ mime_format (String c fmt)));
                   ("Layers", text i)])])) = OK v).
    { intros l ->. eexists. reflexivity. }
    split; [| split].
    + intros message Hm. rewrite Hm. split; [reflexivity |].
      exact (resolutions_error _ _ _ Hm).
    + exact Hok.
    + intros Hzoom. apply (Hok _ (resolutions_exact _ _ Hzoom)).
Qed.

End BuildersWithRendering.

(** What [Service] emits besides the abstract: the title as the text of
    [Title], the url as the link target of [OnlineResource], the fees
    and the access constraints with the default ["none"] in the place of
    a missing or empty value, and, when keywords are given, one
    [Keyword] per keyword, in the order given, none for an empty
    list. *)
Theorem Service_fields (o : Options) (v : value) :
  Service o = OK v ->
  select ["Service"; "Title"; "_text"] v = of_string o.(title)
  /\ select ["Service"; "OnlineResource"; "_attributes"; "xlink:href"] v
     = of_string o.(url)
  /\ select ["Service"; "Fees"; "_text"] v
     = VString match o.(fees) with
               | Some (String c s) => String c s
               | _ => "none"
               end
  /\ select ["Service"; "AccessConstraints"; "_text"] v
     = VString match o.(accessConstraints) with
               | Some (String c s) => String c s
               | _ => "none"
               end
  /\ (forall l : list string,
        o.(keywords) = Some l ->
        select ["Service"; "KeywordList"; "Keyword"] v = VArray (map text l)).
Proof.
  destruct o as [t u fmt i mn mx sp ab bb kw ac fe].
  unfold Service. cbn [title url abstract keywords accessConstraints fees].
  destruct t as [[|c t]|]; [discriminate | | discriminate].
  destruct u as [[|d u]|]; [discriminate | | discriminate].
  cbn -[json_roundtrip]. intros [= <-].
  split; [| split; [| split; [| split]]].
  - destruct kw, ab; reflexivity.
  - destruct kw, ab; reflexivity.
  - destruct kw; destruct ab; destruct fe as [[|? ?]|]; reflexivity.
  - destruct kw; destruct ab; destruct ac as [[|? ?]|]; reflexivity.
  - intros l [= ->]. destruct ab; cbn; f_equal;
      rewrite map_map; apply map_ext; reflexivity.
Qed.

Lemma Service_fields_witness :
  exists v : value,
    Service test_options = OK v
    /\ select ["Service"; "KeywordList"; "Keyword"] v
       = VArray [text "world"; text "imagery"; text "wms-c"]
    /\ select ["Service"; "Fees"; "_text"] v = VString "none".
Proof.
  eexists. split; [reflexivity |].
  destruct (Service_fields test_options _ eq_refl) as [_ [_ [Hfees [_ Hkw]]]].
  split; [exact (Hkw ["world"; "imagery"; "wms-c"] eq_refl) | exact Hfees].
Defined.

(** What [Request] emits: the three operations with their formats, the
    [GetMap] format being ["image/"] followed by the format option as it
    is, except that jpg becomes jpeg (the format is not compared with
    the three documented ones), and under each operation the same
    transport element, whose link target is the url. *)
Theorem Request_content (o : Options) (u f : string) (v : value) :
  o.(url) = Some u ->
  o.(format) = Some f ->
  Request o = OK v ->
  select ["Request"; "GetCapabilities"; "Format"; "_text"] v
  = VString "application/vnd.ogc.wms_xml"
  /\ select ["Request"; "GetMap"; "Format"; "_text"] v
     = VString (if String.eqb f "jpg" then "image/jpeg" else "image/" ++ f)
  /\ select ["Request"; "GetFeatureInfo"; "Format"] v
     = VArray [text "application/vnd.ogc.gml"; text "text/plain";
               text "text/html"]
  /\ (forall operation : string,
        In operation ["GetCapabilities"; "GetMap"; "GetFeatureInfo"] ->
        select ["Request"; operation; "DCPType"] v
        = VObject [("HTTP", VObject [("Get", VObject [
            ("OnlineResource", VObject [("_attributes", VObject [
               ("xmlns:xlink", VString "http://www.w3.org/1999/xlink");
               ("xlink:type", VString "simple");
               ("xlink:href", VString u)])])])])]).
Proof.
  destruct o as [t u' fmt i mn mx sp ab bb kw ac fe].
  cbn [url format]. intros -> -> H.
  unfold Request in H. cbn [url format] in H.
  destruct u as [|d u]; [discriminate H |].
  destruct f as [|c f]; [discriminate H |].
  cbn in H. injection H as <-.
  split; [reflexivity |].
  split.
  - unfold mime_format.
    destruct (String.eqb (String c f) "jpg"); reflexivity.
  - split; [reflexivity |].
    intros operation [<-|[<-|[<-|[]]]]; reflexivity.
Qed.

Lemma Request_content_witness :
  exists v : value,
    Request (mkOptions None (Some "http://localhost:80/WMTS") (Some "gif")
               None None None None None None None None None) = OK v
    /\ select ["Request"; "GetMap"; "Format"; "_text"] v = VString "image/gif".
Proof.
  eexists. split; [reflexivity |].
  destruct (Request_content
              (mkOptions None (Some "http://localhost:80/WMTS") (Some "gif")
                 None None None None None None None None None)
              "http://localhost:80/WMTS" "gif" _ eq_refl eq_refl eq_refl)
    as [_ [H _]].
  exact H.
Defined.

(** What [Layer] emits besides the bounding boxes: the title as the text
    of the [Title] of the layer and of its sub-layer, and the four
    reference systems EPSG:900913, EPSG:4326, CRS:84 and EPSG:3857; the
    sub-layer has no [SRS] of its own. *)
Theorem Layer_content (o : Options) (v : value) :
  Layer o = OK v ->
  select ["Layer"; "Title"; "_text"] v = of_string o.(title)
  /\ select ["Layer"; "Layer"; "Title"; "_text"] v = of_string o.(title)
  /\ select ["Layer"; "Layer"; "Name"; "_text"] v = of_string o.(identifier)
  /\ select ["Layer"; "SRS"] v
     = VArray [text "EPSG:900913"; text "EPSG:4326"; text "CRS:84";
               text "EPSG:3857"]
  /\ select ["Layer"; "Layer"; "SRS"] v = VUndefined.
Proof.
  destruct o as [t u fmt i mn mx sp ab bb kw ac fe].
  unfold Layer. cbn [identifier title url].
  destruct i as [i|]; [| discriminate].
  destruct t as [t|]; [| discriminate].
  destruct u as [u|]; [| discriminate].
  cbn. intros [= <-]. split; [| split; [| split; [| split]]]; reflexivity.
Qed.

Lemma Layer_content_witness :
  exists v : value,
    Layer (mkOptions (Some "") (Some "") None (Some "") None None None None
             None None None None) = OK v
    /\ select ["Layer"; "Title"; "_text"] v = VString "".
Proof.
  eexists. split; [reflexivity |].
  destruct (Layer_content
              (mkOptions (Some "") (Some "") None (Some "") None None None None
                 None None None None) _ eq_refl) as [H _].
  exact H.
Defined.


(** [Object.keys(v)]: the keys of an object, in their order. *)
Definition keys (v : value) : list string :=
  match v with
  | VObject props => map fst props
  | _ => []
  end.

Lemma resolutions_one_zoom (z : Z) :
  - 2 ^ 53 <= z < 2 ^ 53 -> resolutions z z = OK [resolution z].
Proof.
  intros H. rewrite resolutions_exact by (unfold exact_zoom_range; lia).
  unfold zoom_levels.
  destruct (Z.ltb_spec (z + 1) z) as [Hlt|_]; [lia |].
  replace (z + 1 - z) with 1 by lia. reflexivity.
Qed.

Lemma resolutions_no_zoom (z : Z) :
  - 2 ^ 53 < z <= 2 ^ 53 -> resolutions z (z - 1) = OK [].
Proof.
  intros H. rewrite resolutions_exact by (unfold exact_zoom_range; lia).
  unfold zoom_levels.
  destruct (Z.ltb_spec (z - 1 + 1) z) as [Hlt|_]; [lia |].
  replace (z - 1 + 1 - z) with 0 by lia. reflexivity.
Qed.

Lemma roundtrip_text_entries (l : list string) :
  map (fun x : value =>
         match x with
         | VUndefined => VNull
         | _ => json_roundtrip x
         end)
    (map (fun keyword : string => text keyword) l)
  = map (fun keyword : string => text keyword) l.
Proof.
  rewrite map_map. apply map_ext. reflexivity.
Qed.

Lemma texts_defined_everywhere (l : list string) :
  forallb defined_everywhere (map (fun keyword : string => text keyword) l)
  = true.
Proof. induction l as [|s l IH]; [reflexivity | exact IH]. Qed.

Lemma texts_unique_keys (l : list string) :
  forallb unique_keys (map (fun keyword : string => text keyword) l) = true.
Proof. induction l as [|s l IH]; [reflexivity | exact IH]. Qed.

Section Composition.

Variable number_toString : Q -> string.
Variable js2xml : value -> Js2xml.t -> string.

(** What [TileSet] emits when it returns: the seven children in their
    order, the reference system EPSG:3857, the tile size 256 by 256,
    and as [Resolutions] the rendered numbers that [resolutions]
    returns, joined by single spaces: on zoom levels held exactly by a
    double, one number without a space for [maxzoom = minzoom], the
    empty text for [maxzoom = minzoom - 1]. *)
Theorem TileSet_content
  (o : Options) (f id : string) (mn mx : Z) (v : value) :
  o.(format) = Some f ->
  o.(identifier) = Some id ->
  o.(minzoom) = Some mn ->
  o.(maxzoom) = Some mx ->
  TileSet number_toString o = OK v ->
  keys v = ["TileSet"]
  /\ keys (get "TileSet" v)
     = ["SRS"; "BoundingBox"; "Resolutions"; "Width"; "Height"; "Format";
        "Layers"]
  /\ select ["TileSet"; "SRS"; "_text"] v = VString "EPSG:3857"
  /\ select ["TileSet"; "Width"; "_text"] v = VString "256"
  /\ select ["TileSet"; "Height"; "_text"] v = VString "256"
  /\ (exists l : list Q,
        resolutions mn mx = OK l
        /\ select ["TileSet"; "Resolutions"; "_text"] v
           = VString (String.concat " " (map number_toString l)))
  /\ (mx = mn -> - 2 ^ 53 <= mn < 2 ^ 53 ->
      select ["TileSet"; "Resolutions"; "_text"] v
      = VString (number_toString (resolution mn)))
  /\ (mx = mn - 1 -> - 2 ^ 53 < mn <= 2 ^ 53 ->
      select ["TileSet"; "Resolutions"; "_text"] v = VString "").
Proof.
  destruct o as [t u fmt i mn' mx' sp ab bb kw ac fe].
  cbn [format identifier minzoom maxzoom]. intros -> -> -> -> H.
  unfold TileSet in H. cbn [format identifier minzoom maxzoom] in H.
  destruct f as [|c f]; [discriminate H |].
  cbn in H.
  destruct (resolutions mn mx) as [l|e] eqn:Hl; [| discriminate H].
  cbn in H. injection H as <-.
  do 5 (split; [reflexivity |]).
  assert (E : select ["TileSet"; "Resolutions"; "_text"]
                (VObject [("TileSet", VObject [
                   ("SRS", text "EPSG:3857");
                   ("BoundingBox",
                     bounding_box_element (Some "EPSG:3857") BBOX_METERS);
                   ("Resolutions", text (join " " (map number_toString l)));
                   ("Width", text "256");
                   ("Height", text "256");
                   ("Format", text ("image/" ++ mime_format (String c f)));
                   ("Layers", text id)])])
              = VString (String.concat " " (map number_toString l)))
    by reflexivity.
  split; [exists l; split; [reflexivity | exact E] |].
  split; intros -> Hz.
  - rewrite resolutions_one_zoom in Hl by exact Hz.
    injection Hl as <-. exact E.
  - rewrite resolutions_no_zoom in Hl by exact Hz.
    injection Hl as <-. exact E.
Qed.

(** The document of an accepted options record is composed of the
    results of the four builders on the same record: the [Service] and,
    under [Capability], the [Request], the three exception formats, the
    whole result of [TileSet] as [VendorSpecificCapabilities], and the
    [Layer]. *)
Theorem document_is_composed_of_the_builders (o : Options) (json : value) :
  getCapabilities_json number_toString o = OK json ->
  exists service request tileSet layer : value,
    Service o = OK (VObject [("Service", service)])
    /\ Request o = OK (VObject [("Request", request)])
    /\ TileSet number_toString o = OK tileSet
    /\ Layer o = OK (VObject [("Layer", layer)])
    /\ json = VObject [
         ("_declaration", declaration);
         ("WMT_MS_Capabilities", VObject [
           ("_attributes", VObject [("version", VString "1.1.0")]);
           ("Service", service);
           ("Capability", VObject [
             ("Request", request);
             ("Exception", VObject [("Format", VArray [
                text "application/vnd.ogc.se_xml";
                text "application/vnd.ogc.se_inimage";
                text "application/vnd.ogc.se_blank"])]);
             ("VendorSpecificCapabilities", tileSet);
             ("Layer", layer)])])].
Proof.
  intros H. accepted_tree H o.
  do 4 eexists.
  split; [reflexivity |]. split; [reflexivity |].
  split; [| split; reflexivity].
  unfold TileSet. cbn [format identifier minzoom maxzoom truthy required bind].
  match goal with
  | E : resolutions _ _ = OK _ |- _ => cbn; rewrite E
  end.
  reflexivity.
Qed.

(** The tree handed to the serializer holds no [undefined] at any
    depth, and each of its objects has each key once. *)
Theorem document_is_well_formed (o : Options) (json : value) :
  getCapabilities_json number_toString o = OK json ->
  defined_everywhere json = true /\ unique_keys json = true.
Proof.
  intros H.
  destruct o as [t u f id mn mx sp ab bb kw ac fe].
  unfold getCapabilities_json, Capabilities in H.
  rewrite normalize_unchanged in H.
  cbn [title url format identifier minzoom maxzoom spaces] in *.
  by_checks u t f id mn mx ltac:(cbn in H; discriminate H).
  cbn in H. destruct (resolutions mn mx) as [l|e]; [| discriminate H].
  destruct ab as [ab|]; destruct kw as [kw|]; cbn in H; injection H as <-;
    rewrite ?roundtrip_text_entries;
    (split; cbn; rewrite ?texts_defined_everywhere, ?texts_unique_keys;
     reflexivity).
Qed.


(** [getCapabilities] returns a document exactly when [title], [url]
    and [format] are non-empty strings, [identifier], [minzoom] and
    [maxzoom] are defined and [resolutions] returns for the two zoom
    levels; with zoom levels held exactly by a double, that is when
    fewer than 2^32 zoom levels lie between [minzoom] and
    [maxzoom + 1].  Nothing else is validated (not the format against
    the three documented ones, not the order or the sign of the zoom
    levels, not [spaces]). *)
Theorem getCapabilities_accepted_iff (o : Options) :
  ((exists xml : string,
      getCapabilities number_toString js2xml (Some o) = OK xml)
   <-> truthy_string o.(title) = true
       /\ truthy_string o.(url) = true
       /\ truthy_string o.(format) = true
       /\ o.(identifier) <> None
       /\ exists mn mx : Z,
            o.(minzoom) = Some mn /\ o.(maxzoom) = Some mx
            /\ exists l : list Q, resolutions mn mx = OK l)
  /\ (forall mn mx : Z,
        o.(minzoom) = Some mn -> o.(maxzoom) = Some mx ->
        - 2 ^ 53 <= mn <= 2 ^ 53 ->
        - 2 ^ 53 <= mx < 2 ^ 53 ->
        Z.abs (mx + 1 - mn) < 2 ^ 53 ->
        ((exists xml : string,
            getCapabilities number_toString js2xml (Some o) = OK xml)
         <-> truthy_string o.(title) = true
             /\ truthy_string o.(url) = true
             /\ truthy_string o.(format) = true
             /\ o.(identifier) <> None
             /\ Z.abs (mx + 1 - mn) < 2 ^ 32)).
Proof.
  assert (Hiff :
    (exists xml : string,
       getCapabilities number_toString js2xml (Some o) = OK xml)
    <-> truthy_string o.(title) = true
        /\ truthy_string o.(url) = true
        /\ truthy_string o.(format) = true
        /\ o.(identifier) <> None
        /\ exists mn mx : Z,
             o.(minzoom) = Some mn /\ o.(maxzoom) = Some mx
             /\ exists l : list Q, resolutions mn mx = OK l).
  { destruct o as [t u f id mn mx sp ab bb kw ac fe].
    unfold getCapabilities, getCapabilities_json, Capabilities.
    cbn [title url format identifier minzoom maxzoom spaces].
    rewrite normalize_unchanged.
    by_checks u t f id mn mx
      ltac:(cbn; split;
            [intros [xml H]; discriminate H
            | intros [H1 [H2 [H3 [H4 [mn' [mx' [H5 [H6 H7]]]]]]]];
              try discriminate; contradiction]).
    cbn. destruct (resolutions mn mx) as [l|e] eqn:Hl; cbn; split.
    - intros _. do 4 (split; [try reflexivity; discriminate |]).
      exists mn, mx. split; [reflexivity |]. split; [reflexivity |].
      exists l. exact Hl.
    - intros _. eexists. reflexivity.
    - intros [xml H]. discriminate H.
    - intros [_ [_ [_ [_ [mn' [mx' [[= <-] [[= <-] [l Hl']]]]]]]]].
      rewrite Hl in Hl'. discriminate Hl'. }
  split; [exact Hiff |].
  intros mn mx Hmn Hmx Bmn Bmx Bd. rewrite Hiff.
  split.
  - intros [H1 [H2 [H3 [H4 [mn' [mx' [Hmn' [Hmx' [l Hl]]]]]]]]].
    rewrite Hmn in Hmn'. rewrite Hmx in Hmx'.
    injection Hmn' as <-. injection Hmx' as <-.
    do 4 (split; [assumption |]).
    destruct (Z.lt_ge_cases (Z.abs (mx + 1 - mn)) (2 ^ 32)) as [H|H];
      [exact H |].
    rewrite resolutions_range_error in Hl by lia. discriminate Hl.
  - intros [H1 [H2 [H3 [H4 H5]]]].
    do 4 (split; [assumption |]).
    exists mn, mx. split; [exact Hmn |]. split; [exact Hmx |].
    eexists. apply resolutions_exact. unfold exact_zoom_range. lia.
Qed.

(** Every error of [getCapabilities] carries one of seven messages: the
    six of the checks in [Capabilities], [Service], [Request] and
    [TileSet], and the RangeError of [Array] that [resolutions] lets
    through.  The checks of [Layer] and [DCPType] and the check of
    [url] in [Service] and [Request] never fail inside
    [getCapabilities]: it never throws their messages. *)
Theorem getCapabilities_error_messages
  (options : option Options) (message : string) :
  getCapabilities number_toString js2xml options = Throw message ->
  In message
    ["<url> is required"; "options.title is required";
     "options.format is required"; "options.identifier is required";
     "options.minzoom is required"; "options.maxzoom is required";
     "Invalid array length"].
Proof.
  destruct options as [o|]; [| cbn; intros [= <-]; tauto].
  destruct o as [t u f id mn mx sp ab bb kw ac fe].
  unfold getCapabilities, getCapabilities_json, Capabilities.
  cbn [title url format identifier minzoom maxzoom spaces].
  rewrite normalize_unchanged.
  by_checks u t f id mn mx ltac:(cbn; intros [= <-]; tauto).
  cbn. destruct (resolutions mn mx) as [l|e] eqn:Hl; cbn; [discriminate |].
  intros [= <-]. rewrite (resolutions_error _ _ _ Hl). cbn. tauto.
Qed.

(** [exception] without options behaves as with the options [{}]; it
    hands every [spaces] other than 0 to the serializer as it is,
    negative numbers included, and 2 otherwise; the options have no part
    in the tree. *)
Theorem exception_options (message : option string) (n : Z) :
  exception js2xml message None
  = exception js2xml message (Some (ExceptionOptions.mk None))
  /\ exception js2xml message None
     = js2xml (exception_json message) (Js2xml.mk true 2)
  /\ exception js2xml message (Some (ExceptionOptions.mk (Some n)))
     = js2xml (exception_json message)
         (Js2xml.mk true (if n =? 0 then 2 else n)).
Proof.
  split; [reflexivity |]. split; [reflexivity |].
  destruct n; reflexivity.
Qed.

End Composition.

(** The options a builder reads: [Service] title, url, abstract,
    keywords, fees and access constraints; [Request] url and format;
    [TileSet] format, identifier, minzoom and maxzoom; [Layer]
    identifier, title and whether a url is set.  Two options records
    that agree on these give the same result, whatever their other
    options are. *)
Theorem builders_read_their_options_only
  (number_toString : Q -> string) (o o' : Options) :
  (o.(title) = o'.(title) -> o.(url) = o'.(url) ->
   o.(abstract) = o'.(abstract) -> o.(keywords) = o'.(keywords) ->
   o.(fees) = o'.(fees) -> o.(accessConstraints) = o'.(accessConstraints) ->
   Service o = Service o')
  /\ (o.(url) = o'.(url) -> o.(format) = o'.(format) -> Request o = Request o')
  /\ (o.(format) = o'.(format) -> o.(identifier) = o'.(identifier) ->
      o.(minzoom) = o'.(minzoom) -> o.(maxzoom) = o'.(maxzoom) ->
      TileSet number_toString o = TileSet number_toString o')
  /\ (o.(identifier) = o'.(identifier) -> o.(title) = o'.(title) ->
      defined o.(url) = defined o'.(url) ->
      Layer o = Layer o').
Proof.
  destruct o as [t u fmt i mn mx sp ab bb kw ac fe].
  destruct o' as [t' u' fmt' i' mn' mx' sp' ab' bb' kw' ac' fe'].
  cbn [title url format identifier minzoom maxzoom abstract keywords fees
       accessConstraints].
  split; [| split; [| split]].
  - intros -> -> -> -> -> ->. reflexivity.
  - intros -> ->. reflexivity.
  - intros -> -> -> ->. reflexivity.
  - intros -> -> H. unfold Layer. cbn [identifier title url].
    destruct u, u'; try discriminate H; reflexivity.
Qed.

Lemma TileSet_content_witness :
  exists v : value,
    TileSet (fun _ => "r") (mkOptions None None (Some "png") (Some "osm")
                              (Some 3) (Some 2) None None None None None None)
    = OK v
    /\ select ["TileSet"; "Resolutions"; "_text"] v = VString "".
Proof.
  eexists. split; [reflexivity |].
  destruct (TileSet_content (fun _ => "r")
              (mkOptions None None (Some "png") (Some "osm")
                 (Some 3) (Some 2) None None None None None None)
              "png" "osm" 3 2 _ eq_refl eq_refl eq_refl eq_refl eq_refl)
    as [_ [_ [_ [_ [_ [_ [_ H]]]]]]].
  apply (H eq_refl). lia.
Defined.

Lemma document_is_composed_of_the_builders_witness :
  exists json tileSet : value,
    getCapabilities_json (fun _ => "") test_options = OK json
    /\ TileSet (fun _ => "") test_options = OK tileSet
    /\ select ["WMT_MS_Capabilities"; "Capability";
               "VendorSpecificCapabilities"] json = tileSet.
Proof.
  destruct (test_options_accepted (fun _ => "") (fun _ _ => ""))
    as [json [H _]].
  destruct (document_is_composed_of_the_builders (fun _ => "")
              test_options json H)
    as [service [request [tileSet [layer [_ [_ [HT [_ ->]]]]]]]].
  eexists. exists tileSet.
  split; [exact H |]. split; [exact HT | reflexivity].
Defined.

Lemma document_is_well_formed_witness :
  exists json : value,
    getCapabilities_json (fun _ => "") test_options = OK json
    /\ defined_everywhere json = true
    /\ unique_keys json = true.
Proof.
  destruct (test_options_accepted (fun _ => "") (fun _ _ => ""))
    as [json [H _]].
  exists json. split; [exact H |].
  apply (document_is_well_formed (fun _ => "") test_options json H).
Defined.

Lemma getCapabilities_error_messages_witness :
  getCapabilities (fun _ => "") (fun _ _ => "")
    (Some (mkOptions (Some "Tile Service") (Some "http://localhost:80/WMTS")
             (Some "png") (Some "osm") (Some 0) (Some 4294967295)
             None None None None None None))
  = Throw "Invalid array length"
  /\ In "Invalid array length"
       ["<url> is required"; "options.title is required";
        "options.format is required"; "options.identifier is required";
        "options.minzoom is required"; "options.maxzoom is required";
        "Invalid array length"].
Proof.
  split; [reflexivity |].
  apply (getCapabilities_error_messages (fun _ => "") (fun _ _ => "")
           (Some (mkOptions (Some "Tile Service")
                    (Some "http://localhost:80/WMTS")
                    (Some "png") (Some "osm") (Some 0) (Some 4294967295)
                    None None None None None None))
           "Invalid array length").
  reflexivity.
Defined.

(** [Capability] runs the checks of [Request], [TileSet] and [Layer] in
    this order.  It returns a fragment exactly when [url] and [format]
    are non-empty strings, [identifier], [minzoom], [maxzoom] and
    [title] are defined and [resolutions] returns for the zoom levels;
    the title may be the empty string, and a missing title is reported
    last, by the check of [Layer], after the RangeError of
    [resolutions]. *)
Theorem Capability_accepted_iff (number_toString : Q -> string) (o : Options) :
  ((exists v : value, Capability number_toString o = OK v)
   <-> truthy_string o.(url) = true
       /\ truthy_string o.(format) = true
       /\ o.(identifier) <> None
       /\ (exists mn mx : Z,
             o.(minzoom) = Some mn /\ o.(maxzoom) = Some mx
             /\ exists l : list Q, resolutions mn mx = OK l)
       /\ o.(title) <> None)
  /\ (forall (mn mx : Z) (l : list Q),
        truthy_string o.(url) = true ->
        truthy_string o.(format) = true ->
        o.(identifier) <> None ->
        o.(minzoom) = Some mn ->
        o.(maxzoom) = Some mx ->
        resolutions mn mx = OK l ->
        o.(title) = None ->
        Capability number_toString o = Throw "title is required")
  /\ (forall (mn mx : Z) (message : string),
        truthy_string o.(url) = true ->
        truthy_string o.(format) = true ->
        o.(identifier) <> None ->
        o.(minzoom) = Some mn ->
        o.(maxzoom) = Some mx ->
        resolutions mn mx = Throw message ->
        Capability number_toString o = Throw "Invalid array length").
Proof.
  destruct o as [t u f id mn mx sp ab bb kw ac fe].
  unfold Capability, Request, TileSet, Layer.
  cbn [title url format identifier minzoom maxzoom].
  split; [| split].
  - destruct u as [[|? u]|]; destruct f as [[|? f]|]; destruct id as [id|];
      destruct mn as [mn|]; destruct mx as [mx|]; cbn;
      try (split;
           [intros [v H]; discriminate H
           | intros [H1 [H2 [H3 [[mn' [mx' [H4 [H5 H6]]]] H7]]]];
             try discriminate; contradiction]).
    destruct (resolutions mn mx) as [l|e] eqn:Hl; destruct t as [t|]; cbn;
      split.
    + intros _. do 3 (split; [try reflexivity; discriminate |]).
      split; [| discriminate].
      exists mn, mx. split; [reflexivity |]. split; [reflexivity |].
      exists l. exact Hl.
    + intros _. eexists. reflexivity.
    + intros [v H]. discriminate H.
    + intros [_ [_ [_ [_ H]]]]. contradiction.
    + intros [v H]. discriminate H.
    + intros [_ [_ [_ [[mn' [mx' [[= <-] [[= <-] [l Hl']]]]] _]]]].
      rewrite Hl in Hl'. discriminate Hl'.
    + intros [v H]. discriminate H.
    + intros [_ [_ [_ [_ H]]]]. contradiction.
  - intros mn' mx' l.
    destruct u as [[|? u]|]; destruct f as [[|? f]|]; destruct id as [id|];
      cbn; intros H1 H2 H3; try discriminate; try contradiction.
    intros -> -> Hl ->. cbn. rewrite Hl. reflexivity.
  - intros mn' mx' message.
    destruct u as [[|? u]|]; destruct f as [[|? f]|]; destruct id as [id|];
      cbn; intros H1 H2 H3; try discriminate; try contradiction.
    intros -> -> Hl. cbn. rewrite Hl.
    rewrite (resolutions_error _ _ _ Hl). reflexivity.
Qed.
